(** * QuickText backend: the send / receive / admin routes of [server.js]

    A shallow embedding of the request handlers of [src/server.js] over a
    model of the three collaborators they call: the [nanoid] generator built
    by [customAlphabet], the [messages] table of the relational store
    (schema in [schema.sql]) and the in-memory window counter of
    [express-rate-limit].  Handlers are written in a state monad over the
    [world] they run in, in the order of the statements of the source. *)

From Stdlib Require Import ZArith List String Ascii Bool Lia Sorted.
From stdpp Require Import base decidable option list strings gmap.

Local Open Scope Z_scope.

(* ===================================================================== *)
(** ** JavaScript values *)
(* ===================================================================== *)

(** A JavaScript string is the sequence of its UTF-16 code units;
    [s.length] is the length of that sequence and [===] on strings is
    equality of the sequences. *)
Definition char16 := N.
Definition jsstring := list char16.

(** String literals of the source. *)
Definition js (s : string) : jsstring :=
  map N_of_ascii (list_ascii_of_string s).

(** A value that is a string or is missing ([undefined], or a JSON [null]):
    the fields of a request body, a request header, an environment
    variable. *)
Definition jsopt := option jsstring.

(** [!v] is false exactly for a non-empty string. *)
Definition truthy (v : jsopt) : bool :=
  match v with
  | Some (_ :: _) => true
  | _ => false
  end.

(** [String(v).length] for a truthy [v]. *)
Definition String_length (v : jsopt) : Z :=
  match v with
  | Some s => Z.of_nat (length s)
  | None => 0
  end.

(** The text carried by a truthy value. *)
Definition text_of (v : jsopt) : jsstring := default [] v.

(** JSON payloads written with [res.json]. [JNum] carries the value of a
    JavaScript number. Instants are kept as numbers of milliseconds since
    the epoch; their ISO-8601 rendering is one-to-one and is left out. *)
#[local] Unset Elimination Schemes.
Inductive json :=
| JNull
| JBool (b : bool)
| JNum (n : Z)
| JStr (s : jsstring)
| JArr (l : list json)
| JObj (fields : list (string * json)).
#[local] Set Elimination Schemes.

(** The number a JavaScript program holds for the integer [z] of a JSON
    text it has parsed: the double nearest to [z], ties to the even
    mantissa. Integers up to 2^53 in absolute value are held exactly; the
    integers of a [bigint] column are all within the range of a double. *)
Definition js_number (z : Z) : Z :=
  let a := Z.abs z in
  let e := Z.log2 a - 52 in
  if e <=? 0 then z
  else
    let q := 2 ^ e in
    let m := a / q in
    let r := a mod q in
    let m' := if 2 * r <? q then m
              else if q <? 2 * r then m + 1
              else if Z.even m then m else m + 1 in
    Z.sgn z * (m' * q).

Record response := Response { status : Z; payload : json }.

(** [res.json(v)] answers with status 200; [res.status(c).json(v)] with [c]. *)
Definition res_json (v : json) : response := Response 200 v.
Definition res_status_json (c : Z) (v : json) : response := Response c v.

Definition error_body (msg : string) : json := JObj [("error"%string, JStr (js msg))].

(* ===================================================================== *)
(** ** nanoid: [customAlphabet(alphabet, 7)] *)
(* ===================================================================== *)

Definition alphabet : jsstring :=
  js "0123456789ABCDEFGHIJKLMNOPQRSTUVWXYZabcdefghijklmnopqrstuvwxyz".

Definition code_size : nat := 7.

(** [mask = (2 << (31 - Math.clz32((alphabet.length - 1) | 1))) - 1]; for a
    positive 32-bit [x], [31 - clz32 x] is [Z.log2 x]. *)
Definition mask_of (alphabet_length : Z) : Z :=
  Z.shiftl 2 (Z.log2 (Z.lor (alphabet_length - 1) 1)) - 1.

(** [alphabet[i] || ''], the index being a number. *)
Definition symbol_at (abc : jsstring) (i : Z) : jsstring :=
  match abc !! Z.to_nat i with
  | Some c => [c]
  | None => []
  end.

(** The generator loop of [customRandom]: random bytes are inspected one at
    a time, [id += alphabet[byte & mask] || ''], until [id.length >= size].
    [bytes] is the supply of random bytes in the order in which the loop
    inspects them; the result is the identifier and the unread supply, or
    [None] when the supply given is too short to finish. *)
Fixpoint customRandom (abc : jsstring) (mask : Z) (size : nat)
    (id : jsstring) (bytes : list Z) : option (jsstring * list Z) :=
  match bytes with
  | [] => None
  | b :: rest =>
      let id' := id ++ symbol_at abc (Z.land b mask) in
      if (size <=? length id')%nat then Some (id', rest)
      else customRandom abc mask size id' rest
  end.

Definition customAlphabet (abc : jsstring) (size : nat)
    (bytes : list Z) : option (jsstring * list Z) :=
  customRandom abc (mask_of (Z.of_nat (length abc))) size [] bytes.

(** The symbols the spec names: digits, upper-case and lower-case letters. *)
Definition is_base62 (c : char16) : bool :=
  ((48 <=? c) && (c <=? 57) || (65 <=? c) && (c <=? 90) || (97 <=? c) && (c <=? 122))%N.

(* ===================================================================== *)
(** ** The relational store: table [messages] *)
(* ===================================================================== *)

(** A row of [public.messages]. The handlers name the two timestamp columns
    [created_at] and [expires_at]; they are the [createdAt] and [expiresAt]
    columns of the schema. *)
Record row := Row {
  id : Z;
  topic : jsstring;
  author : jsstring;
  code : jsstring;
  message : jsstring;
  created_at : Z;
  expires_at : Z
}.

Inductive db_error :=
| Unavailable        (* the call did not reach the store, or the store failed *)
| UniqueViolation    (* [code ... unique] *)
| ValueTooLong       (* [code varchar(7)] *)
| NotOneRow          (* [.single()] / [.maybeSingle()] on a wrong number of rows *)
| OutOfRange.        (* a literal that is no [bigint] *)

(** What a store call resolves to: [{ data, error }]. *)
Inductive reply (A : Type) :=
| Data (a : A)
| Error (e : db_error).
Arguments Data {A} a.
Arguments Error {A} e.

(** The calls made on the store, as recorded in the order they are made. *)
Inductive db_call :=
| SelectIdByCode (c : jsstring) (r : reply (option Z))
| InsertMessage (c : jsstring) (r : reply row)
| SelectLiveByCode (c : jsstring) (nowIso : Z) (r : reply row)
| SelectAll (r : reply (list row))
| DeleteById (i : Z) (r : reply unit).

(** [.eq('code', c)] *)
Definition rows_with_code (c : jsstring) (t : list row) : list row :=
  filter (λ r, code r = c) t.

(** [.eq('code', c).gt('expires_at', nowIso)] *)
Definition live_rows (c : jsstring) (nowIso : Z) (t : list row) : list row :=
  filter (λ r, code r = c ∧ nowIso < expires_at r) t.

(** [.maybeSingle()]: no row is [null], one row is that row, more is an
    error. *)
Definition maybeSingle {A} (l : list A) : reply (option A) :=
  match l with
  | [] => Data None
  | [x] => Data (Some x)
  | _ => Error NotOneRow
  end.

(** [.single()]: exactly one row, anything else is an error. *)
Definition single {A} (l : list A) : reply A :=
  match l with
  | [x] => Data x
  | _ => Error NotOneRow
  end.

(** [.order('created_at', { ascending: false })], by insertion. *)
Fixpoint insert_desc (r : row) (l : list row) : list row :=
  match l with
  | [] => [r]
  | x :: l' =>
      if created_at x <? created_at r then r :: x :: l' else x :: insert_desc r l'
  end.

Definition order_created_at_desc (t : list row) : list row :=
  foldr insert_desc [] t.

Definition is_bigint (i : Z) : bool :=
  (- 2 ^ 63 <=? i) && (i <? 2 ^ 63).

(* ===================================================================== *)
(** ** The world a request runs in *)
(* ===================================================================== *)

(** [table], [next_id]: the rows of [messages] and the next value of the
    identity sequence of its [id] column.
    [entropy]: the random bytes [nanoid] will read.
    [faults]: for each coming store call, whether it fails before it takes
    effect (no entry: it does not).
    [log]: the store calls made so far, oldest first.
    [hits]: the counters of the rate limiter, per client address: the
    number of hits in the current window and the instant the window ends. *)
Record world := World {
  table : list row;
  next_id : Z;
  entropy : list Z;
  faults : list bool;
  log : list db_call;
  hits : gmap string (Z * Z)
}.

Definition set_table (t : list row) (w : world) : world :=
  World t (next_id w) (entropy w) (faults w) (log w) (hits w).
Definition set_next_id (n : Z) (w : world) : world :=
  World (table w) n (entropy w) (faults w) (log w) (hits w).
Definition set_entropy (e : list Z) (w : world) : world :=
  World (table w) (next_id w) e (faults w) (log w) (hits w).
Definition set_faults (f : list bool) (w : world) : world :=
  World (table w) (next_id w) (entropy w) f (log w) (hits w).
Definition set_log (l : list db_call) (w : world) : world :=
  World (table w) (next_id w) (entropy w) (faults w) l (hits w).
Definition set_hits (h : gmap string (Z * Z)) (w : world) : world :=
  World (table w) (next_id w) (entropy w) (faults w) (log w) h.

(** A computation on the world. It yields no result only when the finite
    [entropy] supplied is used up inside [nanoid]. *)
Definition M (A : Type) : Type := world → option (A * world).

Definition ret {A} (a : A) : M A := λ w, Some (a, w).

Definition bind {A B} (m : M A) (k : A → M B) : M B :=
  λ w, match m w with
       | Some (a, w') => k a w'
       | None => None
       end.

Definition gets {A} (f : world → A) : M A := λ w, Some (f w, w).
Definition modify (f : world → world) : M unit := λ w, Some (tt, f w).

Declare Scope io_scope.
Delimit Scope io_scope with io.
Notation "x <- m ;; k" := (bind m (λ x, k))
  (at level 100, m at next level, right associativity) : io_scope.
Notation "m ;; k" := (bind m (λ _, k))
  (at level 100, right associativity) : io_scope.
Local Open Scope io_scope.

(** [nanoid()] *)
Definition nanoid : M jsstring :=
  λ w, match customAlphabet alphabet code_size (entropy w) with
       | Some (c, rest) => Some (c, set_entropy rest w)
       | None => None
       end.

(** Every store call first learns whether it fails, and is recorded with
    what it resolved to. *)
Definition next_fault : M bool :=
  λ w, Some (default false (head (faults w)), set_faults (tail (faults w)) w).

Definition record (c : db_call) : M unit :=
  modify (λ w, set_log (log w ++ [c]) w).

(** [supabase.from('messages').select('id').eq('code', code).maybeSingle()] *)
Definition db_select_id_by_code (c : jsstring) : M (reply (option Z)) :=
  down <- next_fault ;;
  t <- gets table ;;
  let r := if (down : bool) then Error Unavailable
           else match maybeSingle (rows_with_code c t) with
                | Data o => Data (id <$> o)
                | Error e => Error e
                end in
  record (SelectIdByCode c r) ;;
  ret r.

(** The identity sequence of [id]: a value drawn is used up, also when the
    row is then refused. *)
Definition nextval : M Z :=
  i <- gets next_id ;;
  modify (set_next_id (i + 1)) ;;
  ret i.

(** [supabase.from('messages').insert({topic, author, code, message,
    expires_at}).select().single()]: the store assigns [id] from the identity
    sequence and [created_at] from its own clock, which reads [store_now]. *)
Definition db_insert (store_now : Z) (tp au c msg : jsstring) (exp : Z)
    : M (reply row) :=
  down <- next_fault ;;
  if (down : bool) then
    record (InsertMessage c (Error Unavailable)) ;;
    ret (Error Unavailable)
  else if (7 <? length c)%nat then
    record (InsertMessage c (Error ValueTooLong)) ;;
    ret (Error ValueTooLong)
  else
    i <- nextval ;;
    t <- gets table ;;
    match rows_with_code c t with
    | _ :: _ =>
        record (InsertMessage c (Error UniqueViolation)) ;;
        ret (Error UniqueViolation)
    | [] =>
        let r := Row i tp au c msg store_now exp in
        modify (set_table (t ++ [r])) ;;
        record (InsertMessage c (Data r)) ;;
        ret (Data r)
    end.

(** [supabase.from('messages').select('id, topic, author, message,
    created_at, expires_at').eq('code', code).gt('expires_at', nowIso)
    .single()] *)
Definition db_select_live (c : jsstring) (nowIso : Z) : M (reply row) :=
  down <- next_fault ;;
  t <- gets table ;;
  let r := if (down : bool) then Error Unavailable
           else single (live_rows c nowIso t) in
  record (SelectLiveByCode c nowIso r) ;;
  ret r.

(** [supabase.from('messages').select(...).order('created_at',
    { ascending: false })] *)
Definition db_select_all : M (reply (list row)) :=
  down <- next_fault ;;
  t <- gets table ;;
  let r := if (down : bool) then Error Unavailable
           else Data (order_created_at_desc t) in
  record (SelectAll r) ;;
  ret r.

(** [supabase.from('messages').delete().eq('id', id)]: rows that match are
    removed; that none matches is no error. *)
Definition db_delete (i : Z) : M (reply unit) :=
  down <- next_fault ;;
  if (down : bool) then
    record (DeleteById i (Error Unavailable)) ;;
    ret (Error Unavailable)
  else if negb (is_bigint i) then
    record (DeleteById i (Error OutOfRange)) ;;
    ret (Error OutOfRange)
  else
    t <- gets table ;;
    modify (set_table (filter (λ r, id r ≠ i) t)) ;;
    record (DeleteById i (Data tt)) ;;
    ret (Data tt).

(* ===================================================================== *)
(** ** POST /api/send *)
(* ===================================================================== *)

(** [const { topic, author, message } = req.body || {}] *)
Record send_body := SendBody {
  body_topic : jsopt;
  body_author : jsopt;
  body_message : jsopt
}.

(** The two checks that open the handler; [None] lets the request through. *)
Definition send_validation (b : send_body) : option response :=
  if negb (truthy (body_topic b)) || negb (truthy (body_author b))
     || negb (truthy (body_message b)) then
    Some (res_status_json 400 (error_body "Missing topic/author/message"))
  else if 10000 <? String_length (body_message b) then
    Some (res_status_json 400 (error_body "Message too long (max 10k chars)"))
  else None.

(** The loop [while (attempts < 5) { ... attempts++ }], on the number
    [5 - attempts] of iterations left. It ends with a response (the store
    failed) or with the value of [code] the handler goes on with. *)
Fixpoint collision_loop (remaining : nat) (c : jsstring) : M (response + jsstring) :=
  match remaining with
  | O => ret (inr c)
  | S remaining' =>
      exists_ <- db_select_id_by_code c ;;
      match exists_ with
      | Error _ => ret (inl (res_status_json 500 (error_body "DB error checking code")))
      | Data None => ret (inr c)
      | Data (Some _) =>
          c' <- nanoid ;;
          collision_loop remaining' c'
      end
  end.

Definition seven_days : Z := 7 * 24 * 60 * 60 * 1000.

(** [new Date(t)] is an invalid date outside of +-8.64e15 ms, and
    [toISOString] throws on it. *)
Definition valid_date (t : Z) : bool :=
  (- 8640000000000000 <=? t) && (t <=? 8640000000000000).

(** The handler. [date_now] is what [Date.now()] reads on line 87,
    [store_now] what the clock of the store reads when it fills
    [created_at]. The only statement of the [try] block that can throw is
    [toISOString]. [data] is the row as parsed from the reply of the store,
    so that [data.id] is a JavaScript number. *)
Definition api_send (date_now store_now : Z) (b : send_body) : M response :=
  match send_validation b with
  | Some res => ret res
  | None =>
      let tp := text_of (body_topic b) in
      let au := text_of (body_author b) in
      let msg := text_of (body_message b) in
      c0 <- nanoid ;;
      found <- collision_loop 5 c0 ;;
      match found with
      | inl res => ret res
      | inr c =>
          let expires := date_now + seven_days in
          if negb (valid_date expires) then
            ret (res_status_json 500 (error_body "Server error"))
          else
            ins <- db_insert store_now tp au c msg expires ;;
            match ins with
            | Error _ => ret (res_status_json 500 (error_body "Failed to save message"))
            | Data data =>
                ret (res_json (JObj [("id"%string, JNum (js_number (id data)));
                                     ("code"%string, JStr (code data));
                                     ("expires_at"%string, JNum (expires_at data))]))
            end
      end
  end.

(* ===================================================================== *)
(** ** POST /api/receive *)
(* ===================================================================== *)

Definition windowMs : Z := 60 * 1000.
Definition max_hits : Z := 5.

Definition limit_message : json :=
  JObj [("success"%string, JBool false);
        ("warning"%string,
         JStr (js "You have exceeded the limit of 5 attempts per minute. Please wait before trying again."))].

(** [receiveLimiter = rateLimit({ windowMs, max, message })], on the memory
    store that [express-rate-limit] uses by default: the request is counted
    in the window of its client address [ip] (a new window of [windowMs]
    opens when there is none or the last one has ended at [now]); beyond
    [max] hits the middleware answers 429 itself with [message], otherwise
    ([None]) it calls the next handler. *)
Definition receiveLimiter (now : Z) (ip : string) : M (option response) :=
  h <- gets hits ;;
  let '(n, reset) :=
    match h !! ip with
    | Some (n, reset) => if reset <=? now then (0, now + windowMs) else (n, reset)
    | None => (0, now + windowMs)
    end in
  let totalHits := n + 1 in
  modify (set_hits (<[ip := (totalHits, reset)]> h)) ;;
  if max_hits <? totalHits then ret (Some (res_status_json 429 limit_message))
  else ret None.

(** [res.json(data)] for the columns selected; [data.id] is a JavaScript
    number. *)
Definition message_json (r : row) : json :=
  JObj [("id"%string, JNum (js_number (id r)));
        ("topic"%string, JStr (topic r));
        ("author"%string, JStr (author r));
        ("message"%string, JStr (message r));
        ("created_at"%string, JNum (created_at r));
        ("expires_at"%string, JNum (expires_at r))].

Definition not_found : response :=
  res_status_json 404 (error_body "Invalid or expired code").

(** The handler behind the limiter; [date_now] is the instant of
    [new Date()]. *)
Definition receive_handler (date_now : Z) (body_code : jsopt) : M response :=
  if negb (truthy body_code) then
    ret (res_status_json 400 (error_body "Missing code"))
  else
    let nowIso := date_now in
    r <- db_select_live (text_of body_code) nowIso ;;
    match r with
    | Error _ => ret not_found
    | Data data => ret (res_json (message_json data))
    end.

(** [app.post('/api/receive', receiveLimiter, handler)] *)
Definition api_receive (limiter_now date_now : Z) (ip : string)
    (body_code : jsopt) : M response :=
  verdict <- receiveLimiter limiter_now ip ;;
  match verdict with
  | Some res => ret res
  | None => receive_handler date_now body_code
  end.

(* ===================================================================== *)
(** ** Admin routes *)
(* ===================================================================== *)

(** [key !== ADMIN_KEY] on values that are strings or [undefined]. *)
Definition strict_neq (a b : jsopt) : bool := negb (bool_decide (a = b)).

(** [requireAdmin]: [Some] is the answer of the middleware, [None] is
    [next()]. [ADMIN_KEY] is [process.env.ADMIN_KEY], [key] is
    [req.header('x-admin-key')]. *)
Definition requireAdmin (ADMIN_KEY key : jsopt) : option response :=
  if negb (truthy ADMIN_KEY) || strict_neq key ADMIN_KEY then
    Some (res_status_json 401 (error_body "Unauthorized"))
  else None.

Definition full_json (r : row) : json :=
  JObj [("id"%string, JNum (js_number (id r)));
        ("topic"%string, JStr (topic r));
        ("author"%string, JStr (author r));
        ("code"%string, JStr (code r));
        ("message"%string, JStr (message r));
        ("created_at"%string, JNum (created_at r));
        ("expires_at"%string, JNum (expires_at r))].

(** [app.get('/api/admin/messages', requireAdmin, ...)] *)
Definition admin_list (ADMIN_KEY key : jsopt) : M response :=
  match requireAdmin ADMIN_KEY key with
  | Some res => ret res
  | None =>
      r <- db_select_all ;;
      match r with
      | Error _ => ret (res_status_json 500 (error_body "DB error"))
      | Data data => ret (res_json (JArr (full_json <$> data)))
      end
  end.

(** [app.delete('/api/admin/messages/:id', requireAdmin, ...)]; the path
    parameter is the decimal text of the integer [i]. *)
Definition admin_delete (ADMIN_KEY key : jsopt) (i : Z) : M response :=
  match requireAdmin ADMIN_KEY key with
  | Some res => ret res
  | None =>
      r <- db_delete i ;;
      match r with
      | Error _ => ret (res_status_json 500 (error_body "DB error"))
      | Data _ => ret (res_json (JObj [("ok"%string, JBool true)]))
      end
  end.

(* ===================================================================== *)
(** ** Properties read off a run *)
(* ===================================================================== *)

(** A well-formed code: [code_size] symbols of [alphabet]. *)
Definition good_code (c : jsstring) : Prop :=
  length c = code_size ∧ Forall (λ x, x ∈ alphabet) c.

(** A byte that [customAlphabet(alphabet, 7)] turns into a symbol. *)
Definition accepted (b : Z) : bool := Z.land b 63 <? 62.

Definition is_check (c : db_call) : Prop :=
  match c with
  | SelectIdByCode _ _ => True
  | _ => False
  end.

(** A collision check that found a row. *)
Definition found_row (c : db_call) : Prop :=
  match c with
  | SelectIdByCode _ (Data (Some _)) => True
  | _ => False
  end.

(** [w'] is [w] after some collision checks and draws of codes: nothing of
    the store has changed and only checks were recorded. *)
Definition checks_only (w w' : world) : Prop :=
  table w' = table w ∧ next_id w' = next_id w ∧ hits w' = hits w ∧
  ∃ calls, log w' = log w ++ calls ∧ Forall is_check calls.

(** The next store call does not fail on its way. *)
Definition store_up (w : world) : Prop := head (faults w) ≠ Some true.

(** The request passes [requireAdmin]. *)
Definition authorized (ADMIN_KEY key : jsopt) : Prop :=
  ∃ k, k ≠ [] ∧ ADMIN_KEY = Some k ∧ key = Some k.

Definition unauthorized : response :=
  res_status_json 401 (error_body "Unauthorized").

(** The row a successful send writes. *)
Definition new_row (date_now store_now : Z) (b : send_body) (w : world)
    (c : jsstring) : row :=
  Row (next_id w) (text_of (body_topic b)) (text_of (body_author b)) c
      (text_of (body_message b)) store_now (date_now + seven_days).

Definition sent_json (r : row) : json :=
  JObj [("id"%string, JNum (js_number (id r))); ("code"%string, JStr (code r));
        ("expires_at"%string, JNum (expires_at r))].

(** The ways a send ends. *)
Inductive send_outcome (date_now store_now : Z) (b : send_body) (w : world)
  : response → world → Prop :=
| SendInvalid res :
    send_validation b = Some res →
    send_outcome date_now store_now b w res w
| SendCheckFailed w' :
    send_validation b = None →
    checks_only w w' →
    send_outcome date_now store_now b w
      (res_status_json 500 (error_body "DB error checking code")) w'
| SendThrew w' :
    send_validation b = None →
    checks_only w w' →
    valid_date (date_now + seven_days) = false →
    send_outcome date_now store_now b w
      (res_status_json 500 (error_body "Server error")) w'
| SendRefused w1 w' c e :
    send_validation b = None →
    checks_only w w1 →
    good_code c →
    table w' = table w →
    hits w' = hits w →
    entropy w' = entropy w1 →
    log w' = log w1 ++ [InsertMessage c (Error e)] →
    (e = UniqueViolation → rows_with_code c (table w) ≠ []) →
    send_outcome date_now store_now b w
      (res_status_json 500 (error_body "Failed to save message")) w'
| SendStored w1 w' c :
    send_validation b = None →
    checks_only w w1 →
    good_code c →
    rows_with_code c (table w) = [] →
    table w' = table w ++ [new_row date_now store_now b w c] →
    hits w' = hits w →
    log w' = log w1 ++ [InsertMessage c (Data (new_row date_now store_now b w c))] →
    send_outcome date_now store_now b w
      (res_json (sent_json (new_row date_now store_now b w c))) w'.

(** A receive request: the address it comes from, the instants the limiter
    and the handler read when they serve it, and the code sent. *)
Record receive_req := ReceiveReq {
  req_ip : string;
  req_limiter_now : Z;
  req_date_now : Z;
  req_code : jsopt
}.

(** Requests served one after the other. *)
Fixpoint serve (reqs : list receive_req) : M (list response) :=
  match reqs with
  | [] => ret []
  | q :: rest =>
      r <- api_receive (req_limiter_now q) (req_date_now q) (req_ip q) (req_code q) ;;
      rs <- serve rest ;;
      ret (r :: rs)
  end.

(** The client has no open window at instant [t]. *)
Definition no_window (w : world) (ip : string) (t : Z) : Prop :=
  match hits w !! ip with
  | Some (_, reset) => reset ≤ t
  | None => True
  end.

(** The accepted bytes left in the supply. *)
Definition supply (w : world) : nat :=
  length (filter (λ b, accepted b = true) (entropy w)).

(** The counter of a client after one more request at instant [now]. *)
Definition window_after (h : option (Z * Z)) (now : Z) : Z * Z :=
  match h with
  | Some (n, reset) => if reset <=? now then (1, now + windowMs) else (n + 1, reset)
  | None => (1, now + windowMs)
  end.

Definition limited : response := res_status_json 429 limit_message.

(* ===================================================================== *)
(** ** Sample runs *)
(* ===================================================================== *)

(** Seven bytes [d] make the code of seven times the digit [d]. *)
Definition bytes_of_digits (ds : list Z) : list Z :=
  concat ((λ d, replicate 7 d) <$> ds).

Definition digits_code (d : Z) : jsstring := replicate 7 (N.of_nat 48 + Z.to_N d)%N.

Definition sample_row (i d created : Z) : row :=
  Row i (js "t") (js "a") (digits_code d) (js "m") created (created + seven_days).

Definition hello : send_body :=
  SendBody (Some (js "t")) (Some (js "a")) (Some (js "hello")).

(** An empty table, and bytes for one code. *)
Definition fresh_world : world :=
  World [] 1 (bytes_of_digits [0]) [] [] ∅.

(** Rows hold the codes 0000000 to 4444444; the generator will draw these
    five codes and then 5555555. *)
Definition five_taken : world :=
  World [sample_row 1 0 10; sample_row 2 1 20; sample_row 3 2 30;
         sample_row 4 3 40; sample_row 5 4 50]
        6 (bytes_of_digits [0; 1; 2; 3; 4; 5]) [] [] ∅.

(** As [five_taken], with 5555555 taken too and bytes for one more code. *)
Definition six_taken : world :=
  World [sample_row 1 0 10; sample_row 2 1 20; sample_row 3 2 30;
         sample_row 4 3 40; sample_row 5 4 50; sample_row 6 5 60]
        7 (bytes_of_digits [0; 1; 2; 3; 4; 5; 6]) [] [] ∅.

(** A row whose [expires_at] is the very instant of the request. *)
Definition just_expired : world :=
  World [Row 1 (js "t") (js "a") (js "0000000") (js "m") 10 (10 + seven_days)]
        2 [] [] [] ∅.

(** Five requests of one client within five seconds, and among them one
    of another client. *)
Definition five_receives : list receive_req :=
  [ReceiveReq "203.0.113.7" 0 0 (Some (js "0000000"));
   ReceiveReq "203.0.113.7" 1000 1001 (Some (js "0000001"));
   ReceiveReq "198.51.100.9" 1500 1501 (Some (js "0000000"));
   ReceiveReq "203.0.113.7" 2000 2001 (Some (js "0000002"));
   ReceiveReq "203.0.113.7" 3000 3001 (Some (js "0000003"));
   ReceiveReq "203.0.113.7" 4000 4001 (Some (js "0000004"))].

(* ===================================================================== *)
(** ** Health check and CORS *)
(* ===================================================================== *)

(** [app.get('/api/health', ...)] *)
Definition api_health : response := res_json (JObj [("ok"%string, JBool true)]).

Definition allowedOrigins : list jsstring :=
  [js "http://localhost:5173"; js "https://quicktext-six.vercel.app"].

(** The [origin] function given to [cors]: [true] is
    [callback(null, true)], [false] is [callback(new Error('CORS not
    allowed'))]. [origin] is the [Origin] header of the request. *)
Definition cors_origin (origin : jsopt) : bool :=
  negb (truthy origin) || bool_decide (text_of origin ∈ allowedOrigins).

(* ===================================================================== *)
(** ** The constraints of the schema *)
(* ===================================================================== *)

(** What [schema.sql] asks of the table: [code ... unique], [id ... primary
    key], and every [id] drawn from the identity sequence. *)
Definition store_ok (w : world) : Prop :=
  NoDup (code <$> table w) ∧ NoDup (id <$> table w) ∧
  ∀ r, r ∈ table w → id r < next_id w.


(** The store calls of a send other than its collision checks. *)
Definition is_insert (c : db_call) : Prop :=
  match c with
  | InsertMessage _ _ => True
  | _ => False
  end.

(** A send body passes the two checks of the handler. *)
Definition valid_body (b : send_body) : Prop :=
  truthy (body_topic b) = true ∧ truthy (body_author b) = true ∧
  truthy (body_message b) = true ∧ String_length (body_message b) ≤ 10000.

(** Two rows with distinct creation instants and one older than the other,
    for the admin list, and one message that has expired. *)
Definition three_rows : world :=
  World [sample_row 1 0 10; sample_row 2 1 30; sample_row 3 2 20]
        4 (bytes_of_digits [0; 3]) [] [] ∅.

(** The first code drawn is taken, and the store fails at the second
    collision check. *)
Definition second_check_fails : world :=
  World [sample_row 1 0 10] 2 (bytes_of_digits [0; 1]) [false; true] [] ∅.

(** The generator draws the same code twice, the table being empty. *)
Definition same_code_twice : world :=
  World [] 1 (bytes_of_digits [0; 0; 1]) [] [] ∅.

(** Seven requests of one client: one that opens a window of the limiter,
    then six within six milliseconds, of which four come before the end of
    that window and two after it. *)
Definition straddling_receives : list receive_req :=
  [ReceiveReq "203.0.113.7" 0 0 (Some (js "0000000"));
   ReceiveReq "203.0.113.7" 59996 59996 (Some (js "0000000"));
   ReceiveReq "203.0.113.7" 59997 59997 (Some (js "0000000"));
   ReceiveReq "203.0.113.7" 59998 59998 (Some (js "0000000"));
   ReceiveReq "203.0.113.7" 59999 59999 (Some (js "0000000"));
   ReceiveReq "203.0.113.7" 60000 60000 (Some (js "0000000"));
   ReceiveReq "203.0.113.7" 60001 60001 (Some (js "0000000"))].

(** Six requests of one client within one window. *)
Definition six_receives : list receive_req :=
  [ReceiveReq "203.0.113.7" 0 0 (Some (js "0000000"));
   ReceiveReq "203.0.113.7" 1000 1001 (Some (js "0000001"));
   ReceiveReq "203.0.113.7" 2000 2001 None;
   ReceiveReq "203.0.113.7" 3000 3001 (Some (js "0000003"));
   ReceiveReq "203.0.113.7" 4000 4001 (Some (js "0000004"));
   ReceiveReq "203.0.113.7" 5000 5001 (Some (js "0000000"))].

(* ===================================================================== *)
(** ** The alphabet and the generator *)
(* ===================================================================== *)

Lemma alphabet_length : length alphabet = 62%nat.
Proof. reflexivity. Qed.

Lemma alphabet_mask : mask_of (Z.of_nat (length alphabet)) = 63.
Proof. reflexivity. Qed.

Lemma alphabet_NoDup : NoDup alphabet.
Proof. refine (bool_decide_unpack (NoDup alphabet) _). vm_compute. exact I. Qed.

Lemma alphabet_base62 : Forall (λ c, is_base62 c = true) alphabet.
Proof.
  refine (bool_decide_unpack (Forall (λ c, is_base62 c = true) alphabet) _).
  vm_compute. exact I.
Qed.

Lemma symbol_at_alphabet abc i : Forall (λ x, x ∈ abc) (symbol_at abc i).
Proof.
  unfold symbol_at. destruct (abc !! Z.to_nat i) as [c|] eqn:E.
  - constructor; [|constructor]. eapply list_elem_of_lookup_2; eauto.
  - constructor.
Qed.

Lemma symbol_at_length abc i : (length (symbol_at abc i) ≤ 1)%nat.
Proof. unfold symbol_at. destruct (abc !! Z.to_nat i); simpl; lia. Qed.

Lemma customRandom_spec abc mask size bytes : ∀ id c rest,
  customRandom abc mask size id bytes = Some (c, rest) →
  (length id < size)%nat →
  Forall (λ x, x ∈ abc) id →
  length c = size ∧ Forall (λ x, x ∈ abc) c ∧
  ∃ used, bytes = used ++ rest ∧ used ≠ [].
Proof.
  induction bytes as [|b bytes IH]; intros id c rest Hrun Hlen Hin; simpl in Hrun.
  - discriminate.
  - pose proof (symbol_at_length abc (Z.land b mask)) as Hs.
    pose proof (symbol_at_alphabet abc (Z.land b mask)) as Ha.
    destruct (Nat.leb_spec size (length (id ++ symbol_at abc (Z.land b mask)))) as [Hge|Hlt].
    + injection Hrun as <- <-. rewrite length_app in *.
      split; [lia|]. split; [by apply Forall_app|].
      exists [b]. by split.
    + destruct (IH _ _ _ Hrun Hlt) as (H1 & H2 & used & -> & _).
      { by apply Forall_app. }
      split; [done|]. split; [done|]. exists (b :: used). by split.
Qed.

Lemma customAlphabet_good bytes c rest :
  customAlphabet alphabet code_size bytes = Some (c, rest) →
  good_code c ∧ ∃ used, bytes = used ++ rest ∧ used ≠ [].
Proof.
  intros H. unfold customAlphabet in H.
  apply customRandom_spec in H as (H1 & H2 & H3).
  - by repeat split.
  - unfold code_size; simpl; lia.
  - constructor.
Qed.

Lemma good_code_base62 c : good_code c → Forall (λ x, is_base62 x = true) c.
Proof.
  intros [_ H]. eapply Forall_impl; [exact H|].
  intros x Hx. simpl. pose proof alphabet_base62 as Hall.
  rewrite Forall_forall in Hall. by apply Hall.
Qed.

(** An accepted byte adds one symbol, any other byte none. *)
Lemma symbol_at_accepted b :
  length (symbol_at alphabet (Z.land b 63)) = if accepted b then 1%nat else 0%nat.
Proof.
  unfold symbol_at, accepted.
  assert (0 ≤ Z.land b 63 < 64) as Hr.
  { change 63 with (Z.ones 6). rewrite Z.land_ones by lia.
    apply Z.mod_pos_bound. lia. }
  destruct (Z.ltb_spec (Z.land b 63) 62) as [Hlt|Hge].
  - destruct (alphabet !! Z.to_nat (Z.land b 63)) eqn:E; [done|].
    apply lookup_ge_None in E. rewrite alphabet_length in E. lia.
  - destruct (alphabet !! Z.to_nat (Z.land b 63)) eqn:E; [|done].
    apply lookup_lt_Some in E. rewrite alphabet_length in E. lia.
Qed.

Lemma accepted_count_cons b bytes :
  length (filter (λ b, accepted b = true) (b :: bytes)) =
  ((if accepted b then 1 else 0) + length (filter (λ b, accepted b = true) bytes))%nat.
Proof.
  rewrite filter_cons. destruct (decide (accepted b = true)) as [E|E].
  - by rewrite E.
  - apply not_true_is_false in E. by rewrite E.
Qed.

(** The generator returns as soon as the supply holds enough accepted
    bytes, and leaves the accepted bytes it did not need. *)
Lemma customRandom_returns size bytes : ∀ id k,
  (length id < size)%nat →
  (size - length id + k ≤ length (filter (λ b, accepted b = true) bytes))%nat →
  ∃ c rest, customRandom alphabet 63 size id bytes = Some (c, rest) ∧
            (k ≤ length (filter (λ b, accepted b = true) rest))%nat.
Proof.
  induction bytes as [|b bytes IH]; intros id k Hlen Hsupply.
  - simpl in Hsupply. lia.
  - rewrite accepted_count_cons in Hsupply.
    pose proof (symbol_at_accepted b) as Hs. simpl.
    destruct (Nat.leb_spec size (length (id ++ symbol_at alphabet (Z.land b 63)))) as [Hge|Hlt].
    + eexists _, _. split; [done|].
      rewrite length_app in Hge. destruct (accepted b); lia.
    + apply IH; [done|]. rewrite length_app in *. destruct (accepted b); lia.
Qed.

(* ===================================================================== *)
(** ** Running the monad *)
(* ===================================================================== *)

Lemma bind_Some {A B} (m : M A) (k : A → M B) w b w' :
  bind m k w = Some (b, w') ↔ ∃ a w1, m w = Some (a, w1) ∧ k a w1 = Some (b, w').
Proof.
  unfold bind. split.
  - destruct (m w) as [[a w1]|]; [eauto|discriminate].
  - by intros (a & w1 & -> & ?).
Qed.

(** Split the first step off a run that returned. *)
Ltac run_step H a w1 E :=
  apply bind_Some in H; destruct H as (a & w1 & E & H).

(** Unfold a store call down to the world it yields. *)
Ltac run_db :=
  cbv beta iota zeta delta
    [db_select_id_by_code db_insert db_select_live db_select_all db_delete
     nextval next_fault record bind ret gets modify];
  cbn [table next_id entropy faults log hits
       set_table set_next_id set_entropy set_faults set_log set_hits].

Lemma nanoid_inv w c w' :
  nanoid w = Some (c, w') →
  good_code c ∧ table w' = table w ∧ next_id w' = next_id w ∧
  hits w' = hits w ∧ log w' = log w ∧ faults w' = faults w ∧
  ∃ used, entropy w = used ++ entropy w' ∧ used ≠ [].
Proof.
  unfold nanoid. intros H.
  destruct (customAlphabet alphabet code_size (entropy w)) as [[c' rest]|] eqn:E;
    [|discriminate].
  injection H as <- <-. apply customAlphabet_good in E as [Hc Hused].
  split; [done|]. do 5 (split; [reflexivity|]). exact Hused.
Qed.

Lemma nanoid_returns w k :
  (7 + k ≤ supply w)%nat →
  ∃ c w', nanoid w = Some (c, w') ∧ (k ≤ supply w')%nat.
Proof.
  intros H. unfold nanoid, customAlphabet. rewrite alphabet_mask.
  destruct (customRandom_returns code_size (entropy w) [] k) as (c & rest & -> & Hk).
  - unfold code_size. simpl. lia.
  - unfold code_size. simpl. unfold supply in H. lia.
  - by eexists _, _.
Qed.

Lemma db_select_id_by_code_run c w :
  ∃ r w', db_select_id_by_code c w = Some (r, w') ∧
    table w' = table w ∧ next_id w' = next_id w ∧ hits w' = hits w ∧
    entropy w' = entropy w ∧ log w' = log w ++ [SelectIdByCode c r] ∧
    (r = Data None → rows_with_code c (table w) = []) ∧
    (∀ i, r = Data (Some i) → ∃ x, rows_with_code c (table w) = [x] ∧ id x = i).
Proof.
  eexists _, _. split; [run_db; reflexivity|]. simpl. repeat split.
  - destruct (default false (head (faults w))); [discriminate|].
    destruct (rows_with_code c (table w)) as [|x [|y l]]; simpl; [done|discriminate..].
  - intros i. destruct (default false (head (faults w))); [discriminate|].
    destruct (rows_with_code c (table w)) as [|x [|y l]]; simpl; [discriminate| |discriminate].
    intros [= <-]. by exists x.
Qed.

Lemma checks_only_refl w : checks_only w w.
Proof.
  repeat split. exists []. split; [by rewrite app_nil_r|constructor].
Qed.

Lemma checks_only_trans w1 w2 w3 :
  checks_only w1 w2 → checks_only w2 w3 → checks_only w1 w3.
Proof.
  intros (Ht & Hn & Hh & l1 & Hl1 & Hc1) (Ht' & Hn' & Hh' & l2 & Hl2 & Hc2).
  repeat split; [congruence..|].
  exists (l1 ++ l2). split.
  - by rewrite Hl2, Hl1, app_assoc.
  - by apply Forall_app.
Qed.

Lemma checks_only_nanoid w c w' : nanoid w = Some (c, w') → checks_only w w'.
Proof.
  intros H. apply nanoid_inv in H as (_ & Ht & Hn & Hh & Hl & _).
  repeat split; [done..|]. exists []. split; [by rewrite app_nil_r|constructor].
Qed.

Lemma checks_only_select c w r w' :
  db_select_id_by_code c w = Some (r, w') → checks_only w w'.
Proof.
  intros H. destruct (db_select_id_by_code_run c w) as (r0 & w0 & E & Ht & Hn & Hh & _ & Hl & _).
  rewrite E in H. injection H as <- <-.
  repeat split; [done..|]. exists [SelectIdByCode c r0]. split; [done|].
  by repeat constructor.
Qed.

(** The loop leaves the store as it found it, and ends with the answer
    to a failed check or with a well-formed code. *)
Lemma collision_loop_inv n : ∀ c w r w',
  collision_loop n c w = Some (r, w') →
  good_code c →
  checks_only w w' ∧
  match r with
  | inl res => res = res_status_json 500 (error_body "DB error checking code")
  | inr c' => good_code c'
  end.
Proof.
  induction n as [|n IH]; intros c w r w' H Hc; simpl in H.
  - injection H as <- <-. split; [apply checks_only_refl|done].
  - run_step H e w1 E. pose proof (checks_only_select _ _ _ _ E) as Hs.
    destruct e as [[i|]|err].
    + run_step H c' w2 E2. pose proof (checks_only_nanoid _ _ _ E2) as Hn.
      apply nanoid_inv in E2 as [Hc' _].
      apply IH in H as [H1 H2]; [|done].
      split; [|done]. eauto using checks_only_trans.
    + injection H as <- <-. by split.
    + injection H as <- <-. by split.
Qed.

Lemma collision_loop_returns n : ∀ c w,
  (7 * n ≤ supply w)%nat →
  ∃ r w', collision_loop n c w = Some (r, w').
Proof.
  induction n as [|n IH]; intros c w Hs; simpl.
  - by eexists _, _.
  - destruct (db_select_id_by_code_run c w) as (r & w1 & E & _ & _ & _ & He & _).
    unfold bind at 1. rewrite E.
    destruct r as [[i|]|err]; [|by eexists _, _..].
    destruct (nanoid_returns w1 (7 * n)) as (c' & w2 & E2 & Hs2).
    { unfold supply in *. rewrite He. lia. }
    unfold bind. rewrite E2. by apply IH.
Qed.

Lemma db_insert_run sn tp au c msg exp w :
  ∃ r w', db_insert sn tp au c msg exp w = Some (r, w') ∧
    hits w' = hits w ∧ entropy w' = entropy w ∧
    log w' = log w ++ [InsertMessage c r] ∧
    match r with
    | Data x =>
        x = Row (next_id w) tp au c msg sn exp ∧
        rows_with_code c (table w) = [] ∧
        table w' = table w ++ [x] ∧ next_id w' = next_id w + 1
    | Error e =>
        table w' = table w ∧
        (e = UniqueViolation → rows_with_code c (table w) ≠ []) ∧
        (store_up w → (length c ≤ 7)%nat → rows_with_code c (table w) ≠ [])
    end.
Proof.
  run_db. unfold store_up.
  destruct (head (faults w)) as [[|]|] eqn:Ef; simpl.
  { eexists _, _. split; [reflexivity|]. simpl. repeat split; done. }
  all: destruct (Nat.ltb_spec 7 (length c)); simpl.
  all: try (eexists _, _; split; [reflexivity|]; simpl; repeat split; [done|lia]).
  all: destruct (rows_with_code c (table w)) eqn:Er; simpl.
  all: eexists _, _; (split; [reflexivity|]); simpl; by rewrite ?Er.
Qed.

(** Every send that returns ends in one of the five ways. *)
Lemma api_send_outcome dn sn b w res w' :
  api_send dn sn b w = Some (res, w') → send_outcome dn sn b w res w'.
Proof.
  unfold api_send. intros H.
  destruct (send_validation b) as [r|] eqn:Ev.
  { injection H as <- <-. by constructor. }
  run_step H c0 w1 E0. pose proof (checks_only_nanoid _ _ _ E0) as H01.
  apply nanoid_inv in E0 as [Hc0 _].
  run_step H found w2 E1.
  apply collision_loop_inv in E1 as [H12 Hf]; [|done].
  pose proof (checks_only_trans _ _ _ H01 H12) as H02.
  destruct found as [r|c].
  { injection H as <- <-. subst r. by apply SendCheckFailed. }
  destruct (valid_date (dn + seven_days)) eqn:Ed; simpl in H.
  2:{ injection H as <- <-. by apply SendThrew. }
  run_step H ins w3 E3.
  destruct (db_insert_run sn (text_of (body_topic b)) (text_of (body_author b)) c
              (text_of (body_message b)) (dn + seven_days) w2)
    as (r & w3' & E3' & Hh & He & Hl & Hr).
  rewrite E3' in E3. injection E3 as <- <-.
  destruct H02 as (Ht & Hn & Hh2 & Hcalls).
  assert (checks_only w w2) as H02 by (by repeat split).
  destruct r as [x|e].
  - destruct Hr as (-> & Hfree & Htab & _).
    injection H as <- <-. rewrite Hn in *. rewrite Ht in *.
    apply (SendStored dn sn b w w2 w3' c); try done. congruence.
  - destruct Hr as (Htab & Hu & _).
    injection H as <- <-. rewrite Ht in *.
    apply (SendRefused dn sn b w w2 w3' c e); try done. congruence.
Qed.

(** With six codes' worth of accepted bytes in the supply a send returns. *)
Lemma api_send_returns dn sn b w :
  (42 ≤ supply w)%nat → ∃ res w', api_send dn sn b w = Some (res, w').
Proof.
  intros Hs. unfold api_send.
  destruct (send_validation b); [by eexists _, _|].
  destruct (nanoid_returns w 35) as (c0 & w1 & E0 & Hs1); [lia|].
  unfold bind at 1. rewrite E0.
  destruct (collision_loop_returns 5 c0 w1) as (found & w2 & E1); [lia|].
  unfold bind at 1. rewrite E1.
  destruct found as [r|c]; [by eexists _, _|].
  destruct (valid_date (dn + seven_days)); simpl; [|by eexists _, _].
  destruct (db_insert_run sn (text_of (body_topic b)) (text_of (body_author b)) c
              (text_of (body_message b)) (dn + seven_days) w2) as (r & w3 & E3 & _).
  unfold bind. rewrite E3. destruct r; by eexists _, _.
Qed.

(** The plain run: the first code drawn is free, the store does not fail
    and the date is valid; the row is stored and answered with 200. *)
Lemma api_send_stores dn sn b w c rest :
  send_validation b = None →
  customAlphabet alphabet code_size (entropy w) = Some (c, rest) →
  rows_with_code c (table w) = [] →
  faults w = [] →
  valid_date (dn + seven_days) = true →
  ∃ w', api_send dn sn b w =
          Some (res_json (sent_json (new_row dn sn b w c)), w') ∧
        table w' = table w ++ [new_row dn sn b w c] ∧
        entropy w' = rest.
Proof.
  intros Hv Hc Hfree Hf Hd.
  destruct (customAlphabet_good _ _ _ Hc) as [[Hlen _] _].
  unfold api_send. rewrite Hv. unfold bind at 1, nanoid. rewrite Hc.
  cbn [collision_loop]. run_db. rewrite Hf. cbn [head tail default].
  rewrite Hfree. cbn [maybeSingle fmap option_fmap option_map].
  rewrite Hd. cbn [negb]. cbn [faults set_log set_faults set_entropy head tail default].
  rewrite Hlen. cbn [code_size Nat.ltb Nat.leb].
  cbn [table set_log set_faults set_entropy set_next_id]. rewrite Hfree.
  eexists. split; [reflexivity|]. split; reflexivity.
Qed.

(** With unique codes [.maybeSingle()] on the rows of a code never fails. *)
Lemma maybeSingle_unique c t :
  NoDup (code <$> t) →
  (rows_with_code c t = [] ∧ maybeSingle (rows_with_code c t) = Data None) ∨
  (∃ x, rows_with_code c t = [x] ∧ maybeSingle (rows_with_code c t) = Data (Some x)).
Proof.
  unfold rows_with_code. induction t as [|x t IH]; intros Hnd; [by left|].
  rewrite fmap_cons in Hnd. apply NoDup_cons in Hnd as [Hx Hnd].
  rewrite filter_cons. destruct (decide (code x = c)) as [<-|Hne].
  - right. exists x.
    assert (filter (λ r, code r = code x) t = []) as ->; [|done].
    destruct (filter (λ r, code r = code x) t) as [|y l] eqn:Ef; [done|].
    assert (y ∈ filter (λ r, code r = code x) t) as Hy.
    { rewrite Ef. apply list_elem_of_here. }
    apply list_elem_of_filter in Hy as [Hc Hy]. destruct Hx. rewrite <- Hc.
    by apply list_elem_of_fmap_2.
  - by apply IH.
Qed.

(** A collision check on a store that does not fail and holds no code
    twice. *)
Lemma db_select_up c w r w' :
  faults w = [] → NoDup (code <$> table w) →
  db_select_id_by_code c w = Some (r, w') →
  faults w' = [] ∧ table w' = table w ∧
  log w' = log w ++ [SelectIdByCode c r] ∧
  ((r = Data None ∧ rows_with_code c (table w) = []) ∨ ∃ i, r = Data (Some i)).
Proof.
  intros Hf Hnd. revert r w'. run_db. rewrite Hf. simpl.
  destruct (maybeSingle_unique c (table w) Hnd) as [[He ->]|(x & He & ->)];
    simpl; intros r w' [= <- <-]; simpl; rewrite ?Hf; repeat split; eauto.
Qed.

(** On such a store the loop always hands over a code: one that its last
    check found in no row, or the one drawn after as many checks as it was
    allowed, each of which found a row. *)
Lemma collision_loop_up n : ∀ c w r w',
  faults w = [] → NoDup (code <$> table w) →
  collision_loop n c w = Some (r, w') →
  faults w' = [] ∧ table w' = table w ∧
  ∃ c' checks, r = inr c' ∧ log w' = log w ++ checks ∧
    (rows_with_code c' (table w) = [] ∨
     (length checks = n ∧ Forall found_row checks)).
Proof.
  induction n as [|n IH]; intros c w r w' Hf Hnd H; simpl in H.
  - injection H as <- <-. split; [done|]. split; [done|].
    exists c, []. rewrite app_nil_r. split; [done|]. split; [done|]. right. by split.
  - run_step H e w1 E.
    destruct (db_select_up _ _ _ _ Hf Hnd E) as (Hf1 & Ht1 & Hl1 & [[-> Hfree]|[i ->]]).
    + injection H as <- <-. split; [done|]. split; [done|].
      exists c, [SelectIdByCode c (Data None)]. split; [done|]. split; [done|]. by left.
    + run_step H c1 w2 E2.
      apply nanoid_inv in E2 as (_ & Ht2 & _ & _ & Hl2 & Hf2 & _).
      destruct (IH c1 w2 r w') as (Hf3 & Ht3 & c' & checks & -> & Hl3 & Hcases);
        [congruence|congruence|done|].
      split; [done|]. split; [congruence|].
      exists c', (SelectIdByCode c (Data (Some i)) :: checks). split; [done|].
      split; [by rewrite Hl3, Hl2, Hl1, <- app_assoc|].
      destruct Hcases as [Hfree|[Hlen Hall]].
      * left. by rewrite <- Ht1, <- Ht2.
      * right. split; [simpl; lia|by constructor].
Qed.

(** On a store that does not fail, the insert of a code of seven symbols is
    refused only by the unique constraint. *)
Lemma db_insert_up sn tp au c msg exp w r w' :
  faults w = [] → length c = 7%nat →
  db_insert sn tp au c msg exp w = Some (r, w') →
  log w' = log w ++ [InsertMessage c r] ∧
  ((∃ x, r = Data x) ∨
   (r = Error UniqueViolation ∧ rows_with_code c (table w) ≠ [])).
Proof.
  intros Hf Hlen. revert r w'. run_db. rewrite Hf, Hlen. simpl.
  destruct (rows_with_code c (table w)) as [|x l] eqn:Er; simpl;
    intros r w' [= <- <-]; simpl; split; eauto.
Qed.

(** On a store that does not fail and holds no code twice, a valid send
    with a valid date and six codes' worth of accepted bytes is answered
    200, unless five checks each found a row and the sixth code, which no
    check looked up, is refused by the unique constraint. *)
Lemma api_send_answers dn sn b w :
  send_validation b = None →
  faults w = [] → NoDup (code <$> table w) →
  valid_date (dn + seven_days) = true →
  (42 ≤ supply w)%nat →
  ∃ res w', api_send dn sn b w = Some (res, w') ∧
    (status res = 200 ∨
     (res = res_status_json 500 (error_body "Failed to save message") ∧
      ∃ c checks,
        log w' = log w ++ checks ++ [InsertMessage c (Error UniqueViolation)] ∧
        length checks = 5%nat ∧ Forall found_row checks)).
Proof.
  intros Hv Hf Hnd Hd Hs.
  destruct (api_send_returns dn sn b w Hs) as (res & w' & H).
  exists res, w'. split; [done|].
  unfold api_send in H. rewrite Hv in H.
  run_step H c0 w1 E0.
  apply nanoid_inv in E0 as (Hg0 & Ht1 & _ & _ & Hl1 & Hf1 & _).
  run_step H r w2 E1.
  destruct (collision_loop_inv _ _ _ _ _ E1 Hg0) as [_ Hgood].
  assert (faults w1 = []) as Hf1' by congruence.
  assert (NoDup (code <$> table w1)) as Hnd1 by (by rewrite Ht1).
  destruct (collision_loop_up _ _ _ _ _ Hf1' Hnd1 E1)
    as (Hf2 & Ht2 & c & checks & -> & Hl2 & Hcases).
  rewrite Hd in H. simpl in H. run_step H ins w3 E3.
  destruct Hgood as [Hlen _].
  destruct (db_insert_up _ _ _ _ _ _ _ _ _ Hf2 Hlen E3) as (Hl3 & [[x ->]|[-> Htaken]]).
  - injection H as <- <-. by left.
  - injection H as <- <-. right. split; [done|].
    destruct Hcases as [Hfree|[Hlen5 Hall]]; [by rewrite Ht2 in Htaken|].
    exists c, checks. split; [|done].
    by rewrite Hl3, Hl2, Hl1, <- app_assoc.
Qed.

(* ===================================================================== *)
(** ** POST /api/send: the claims *)
(* ===================================================================== *)

Lemma send_outcome_status dn sn b w res w' :
  send_outcome dn sn b w res w' →
  send_validation b = None →
  status res = 200 ∨ status res = 500.
Proof.
  intros H Hv. destruct H; simpl; auto. congruence.
Qed.

(** What a send answered with 200 has done. *)
Lemma api_send_200 dn sn b w res w' :
  api_send dn sn b w = Some (res, w') →
  status res = 200 →
  ∃ c, good_code c ∧ rows_with_code c (table w) = [] ∧
       res = res_json (sent_json (new_row dn sn b w c)) ∧
       table w' = table w ++ [new_row dn sn b w c].
Proof.
  intros H Hs. apply api_send_outcome in H. destruct H; simpl in Hs; try lia.
  - unfold send_validation in H.
    destruct (_ || _); [injection H as <-; simpl in Hs; lia|].
    destruct (_ <? _); [injection H as <-; simpl in Hs; lia|discriminate].
  - by exists c.
Qed.

(** C7. For every valid send input, the code the handler returns, which is
    the code of the row it has stored, has length exactly 7 and each of its
    characters belongs to the 62-symbol alphabet, that is, is a digit, an
    upper-case or a lower-case letter. And the handler does return such a
    code: in the plain run (the first code drawn is free, the store does not
    fail, the date is valid) it answers 200 with the code drawn; and on any
    store that does not fail and holds no code twice, it answers 200 as soon
    as the supply holds six codes' worth of accepted bytes, unless five
    checks each found a row and the insert of the sixth code is refused by
    the unique constraint. *)
Theorem sent_code_shape dn sn b w :
  send_validation b = None →
  (∀ res w', api_send dn sn b w = Some (res, w') → status res = 200 →
     ∃ r, payload res = sent_json r ∧ r ∈ table w' ∧
          length (code r) = 7%nat ∧
          Forall (λ x, x ∈ alphabet) (code r) ∧
          Forall (λ x, is_base62 x = true) (code r)) ∧
  ((42 ≤ supply w)%nat → ∃ res w', api_send dn sn b w = Some (res, w')) ∧
  (∀ c rest,
     customAlphabet alphabet code_size (entropy w) = Some (c, rest) →
     rows_with_code c (table w) = [] → faults w = [] →
     valid_date (dn + seven_days) = true →
     ∃ w', api_send dn sn b w =
             Some (res_json (JObj [("id"%string, JNum (js_number (next_id w)));
                                   ("code"%string, JStr c);
                                   ("expires_at"%string, JNum (dn + seven_days))]), w') ∧
           (∃ r, r ∈ table w' ∧ code r = c) ∧
           length c = 7%nat ∧
           Forall (λ x, x ∈ alphabet) c ∧
           Forall (λ x, is_base62 x = true) c) ∧
  (faults w = [] → NoDup (code <$> table w) →
   valid_date (dn + seven_days) = true → (42 ≤ supply w)%nat →
   ∃ res w', api_send dn sn b w = Some (res, w') ∧
     (status res = 200 ∨
      (res = res_status_json 500 (error_body "Failed to save message") ∧
       ∃ c checks,
         log w' = log w ++ checks ++ [InsertMessage c (Error UniqueViolation)] ∧
         length checks = 5%nat ∧ Forall found_row checks))).
Proof.
  intros Hv. split; [|split; [apply api_send_returns|split]].
  - intros res w' H Hs.
    destruct (api_send_200 _ _ _ _ _ _ H Hs) as (c & Hc & _ & -> & Ht).
    exists (new_row dn sn b w c). split; [done|]. split.
    { rewrite Ht. apply elem_of_app. right. by apply list_elem_of_singleton. }
    simpl. destruct Hc as [Hl Ha]. split; [done|]. split; [done|].
    by apply good_code_base62.
  - intros c rest Hc Hfree Hf Hd.
    destruct (api_send_stores dn sn b w c rest Hv Hc Hfree Hf Hd) as (w' & E & Ht & _).
    destruct (customAlphabet_good _ _ _ Hc) as [Hg _].
    exists w'. split; [exact E|]. split.
    { exists (new_row dn sn b w c). split; [|done].
      rewrite Ht. apply elem_of_app. right. by apply list_elem_of_singleton. }
    destruct Hg as [Hl Ha]. split; [done|]. split; [done|].
    by apply good_code_base62.
  - intros Hf Hnd Hd Hs. by apply api_send_answers.
Qed.

Lemma sent_code_shape_witness :
  send_validation hello = None ∧
  (∃ w', api_send 1000 1005 hello fresh_world =
           Some (res_json (JObj [("id"%string, JNum 1);
                                 ("code"%string, JStr (js "0000000"));
                                 ("expires_at"%string, JNum (1000 + seven_days))]), w') ∧
         (∃ r, r ∈ table w' ∧ code r = js "0000000") ∧
         length (js "0000000") = 7%nat ∧
         Forall (λ x, is_base62 x = true) (js "0000000")) ∧
  (∃ res w' r, api_send 1000 1005 hello five_taken = Some (res, w') ∧
               status res = 200 ∧ payload res = sent_json r ∧ r ∈ table w' ∧
               length (code r) = 7%nat ∧
               Forall (λ x, is_base62 x = true) (code r)).
Proof.
  split; [reflexivity|]. split.
  - destruct (sent_code_shape 1000 1005 hello fresh_world eq_refl) as (_ & _ & H & _).
    destruct (H (js "0000000") []) as (w' & E & Hr & Hl & _ & Hb); try reflexivity.
    exists w'. by repeat split.
  - destruct (sent_code_shape 1000 1005 hello five_taken eq_refl) as (Hshape & _ & _ & H).
    assert (NoDup (code <$> table five_taken)) as Hnd.
    { refine (bool_decide_unpack (NoDup (code <$> table five_taken)) _).
      vm_compute. exact I. }
    assert ((42 ≤ supply five_taken)%nat) as Hs by (vm_compute; lia).
    destruct (H eq_refl Hnd eq_refl Hs) as (res & w' & E & [H200|[Hfail _]]).
    + destruct (Hshape _ _ E H200) as (r & Hp & Hr & Hl & _ & Hb).
      by exists res, w', r.
    + exfalso. assert (∃ res0 w0, api_send 1000 1005 hello five_taken = Some (res0, w0) ∧
                                  status res0 = 200) as (res0 & w0 & E0 & Hs0).
      { eexists _, _. split; [vm_compute; reflexivity|reflexivity]. }
      rewrite E in E0. injection E0 as <- _. rewrite Hfail in Hs0. discriminate.
Defined.

(** C6. With a non-empty topic and author, a message of exactly 10,000
    characters passes validation: the request is never answered 400, and in
    the plain run (first code free, store up, valid date) the message is
    stored and answered with 200; a message of 10,001 characters is answered
    400 "Message too long" with the world, hence the store and the record
    of calls on it, left as it was. *)
Theorem send_length_boundary dn sn tp au msg w :
  tp ≠ [] → au ≠ [] →
  (Z.of_nat (length msg) = 10000 →
     send_validation (SendBody (Some tp) (Some au) (Some msg)) = None ∧
     (∀ res w', api_send dn sn (SendBody (Some tp) (Some au) (Some msg)) w = Some (res, w') →
                status res ≠ 400) ∧
     (∀ c rest,
        customAlphabet alphabet code_size (entropy w) = Some (c, rest) →
        rows_with_code c (table w) = [] → faults w = [] →
        valid_date (dn + seven_days) = true →
        ∃ w', api_send dn sn (SendBody (Some tp) (Some au) (Some msg)) w =
                Some (res_json (sent_json (Row (next_id w) tp au c msg sn (dn + seven_days))), w') ∧
              table w' = table w ++ [Row (next_id w) tp au c msg sn (dn + seven_days)])) ∧
  (Z.of_nat (length msg) = 10001 →
     api_send dn sn (SendBody (Some tp) (Some au) (Some msg)) w =
       Some (res_status_json 400 (error_body "Message too long (max 10k chars)"), w)).
Proof.
  intros Htp Hau. destruct tp as [|t0 tp]; [done|]. destruct au as [|a0 au]; [done|].
  split; intros Hlen.
  - assert (send_validation (SendBody (Some (t0 :: tp)) (Some (a0 :: au)) (Some msg)) = None) as Hv.
    { unfold send_validation. destruct msg as [|m0 msg]; [simpl in Hlen; lia|].
      cbn [body_topic body_author body_message truthy negb orb String_length].
      rewrite Hlen. reflexivity. }
    split; [done|]. split.
    + intros res w' H. apply api_send_outcome in H.
      destruct (send_outcome_status _ _ _ _ _ _ H Hv); lia.
    + intros c rest Hc Hfree Hf Hd.
      destruct (api_send_stores dn sn _ w c rest Hv Hc Hfree Hf Hd) as (w' & E & Ht & _).
      by exists w'.
  - unfold api_send, send_validation. destruct msg as [|m0 msg]; [simpl in Hlen; lia|].
    cbn [body_topic body_author body_message truthy negb orb String_length].
    rewrite Hlen. reflexivity.
Qed.

Lemma send_length_boundary_witness :
  js "t" ≠ [] ∧ js "a" ≠ [] ∧
  (∃ w', api_send 1000 1005 (SendBody (Some (js "t")) (Some (js "a"))
                               (Some (replicate (Z.to_nat 10000) 120%N))) fresh_world =
           Some (res_json (sent_json (Row 1 (js "t") (js "a") (js "0000000")
                                          (replicate (Z.to_nat 10000) 120%N)
                                          1005 (1000 + seven_days))), w')) ∧
  api_send 1000 1005 (SendBody (Some (js "t")) (Some (js "a"))
                               (Some (replicate (Z.to_nat 10001) 120%N))) fresh_world =
    Some (res_status_json 400 (error_body "Message too long (max 10k chars)"), fresh_world).
Proof.
  assert (js "t" ≠ []) as Ht by discriminate.
  assert (js "a" ≠ []) as Ha by discriminate.
  split; [exact Ht|]. split; [exact Ha|]. split.
  - destruct (send_length_boundary 1000 1005 (js "t") (js "a")
                (replicate (Z.to_nat 10000) 120%N) fresh_world Ht Ha) as [H _].
    destruct H as (_ & _ & H); [by rewrite length_replicate|].
    destruct (H (js "0000000") []) as (w' & E & _); try reflexivity.
    by exists w'.
  - refine (proj2 (send_length_boundary 1000 1005 (js "t") (js "a")
                     (replicate (Z.to_nat 10001) 120%N) fresh_world Ht Ha) _).
    rewrite length_replicate. reflexivity.
Defined.

(** C5, as the claim states it, fails: the store reads its own clock when it
    fills [created_at], after the handler has read [Date.now()]. Here the
    store reads 1005 and the handler had read 1000. *)
Lemma expiry_not_creation_plus_seven_days :
  ∃ res w' r,
    api_send 1000 1005 hello fresh_world = Some (res, w') ∧
    status res = 200 ∧ table w' = [r] ∧
    expires_at r ≠ created_at r + 7 * 24 * 60 * 60 * 1000.
Proof.
  eexists _, _, _. split; [vm_compute; reflexivity|]. split; [reflexivity|].
  split; [reflexivity|]. vm_compute. discriminate.
Qed.

(** C5, amended. For every message created by a successful send, the stored
    [expires_at] is the reading of [Date.now()] the handler took before the
    insert plus exactly 7 days (7 * 24 * 60 * 60 * 1000 ms), and the stored
    [created_at] is the reading of the clock of the store at the insert; so
    [expires_at] is [created_at] plus 7 days exactly when the two readings
    are the same instant. *)
Theorem expiry_is_date_now_plus_seven_days dn sn b w res w' :
  api_send dn sn b w = Some (res, w') →
  status res = 200 →
  ∃ r, table w' = table w ++ [r] ∧ payload res = sent_json r ∧
       expires_at r = dn + 7 * 24 * 60 * 60 * 1000 ∧
       created_at r = sn ∧
       (expires_at r = created_at r + 7 * 24 * 60 * 60 * 1000 ↔ dn = sn).
Proof.
  intros H Hs.
  destruct (api_send_200 _ _ _ _ _ _ H Hs) as (c & _ & _ & -> & Ht).
  exists (new_row dn sn b w c). simpl. unfold seven_days.
  repeat split; try done; lia.
Qed.

Lemma expiry_is_date_now_plus_seven_days_witness :
  ∃ res w' r,
    api_send 1000 1005 hello fresh_world = Some (res, w') ∧
    status res = 200 ∧
    table w' = table fresh_world ++ [r] ∧
    expires_at r = 1000 + 7 * 24 * 60 * 60 * 1000 ∧ created_at r = 1005.
Proof.
  assert (∃ res w', api_send 1000 1005 hello fresh_world = Some (res, w') ∧
                    status res = 200) as (res & w' & Hrun & Hs).
  { eexists _, _. split; [vm_compute; reflexivity|reflexivity]. }
  destruct (expiry_is_date_now_plus_seven_days _ _ _ _ _ _ Hrun Hs)
    as (r & Ht & _ & He & Hc & _).
  exists res, w', r. by repeat split.
Defined.

(** C2, as the claim states it, fails: on [six_taken] the five checks find a
    row each, the insert of the sixth code is refused by the unique
    constraint, and the handler answers 500 at once: the refused insert is
    its last call on the store and the bytes for a further code stay
    unread. *)
Lemma duplicate_insert_is_fatal :
  ∃ w',
    api_send 1000 1005 hello six_taken =
      Some (res_status_json 500 (error_body "Failed to save message"), w') ∧
    last (log w') = Some (InsertMessage (js "5555555") (Error UniqueViolation)) ∧
    table w' = table six_taken ∧
    entropy w' = bytes_of_digits [6].
Proof.
  eexists. split; [vm_compute; reflexivity|].
  split; [reflexivity|]. split; reflexivity.
Qed.

(** C2, amended. For every send request in which the store refuses the
    insert, for the unique constraint on [code] or for any other reason,
    the handler answers 500 "Failed to save message": the refused insert is
    the last call it makes on the store (it tries no other code) and the
    table is left as it was. *)
Theorem refused_insert_is_fatal dn sn b w res w' calls c e :
  api_send dn sn b w = Some (res, w') →
  log w' = log w ++ calls →
  InsertMessage c (Error e) ∈ calls →
  res = res_status_json 500 (error_body "Failed to save message") ∧
  last calls = Some (InsertMessage c (Error e)) ∧
  Forall is_check (removelast calls) ∧
  table w' = table w.
Proof.
  intros H Hlog Hin. apply api_send_outcome in H.
  assert (∀ l, Forall is_check l → InsertMessage c (Error e) ∈ l → False) as Hno.
  { intros l Hl Hx. rewrite Forall_forall in Hl. by apply Hl in Hx. }
  destruct H as [res Hv|w' Hv Hc|w' Hv Hc Hd|w1 w' c0 e0 Hv Hc Hg Ht Hh He Hl Hu
                 |w1 w' c0 Hv Hc Hg Hf Ht Hh Hl].
  - assert (calls = []) as -> by (apply (app_inv_head (log w)); by rewrite app_nil_r).
    by apply elem_of_nil in Hin.
  - destruct Hc as (_ & _ & _ & l & Hl & Hall).
    rewrite Hl in Hlog. apply app_inv_head in Hlog as ->. by destruct (Hno _ Hall Hin).
  - destruct Hc as (_ & _ & _ & l & Hl & Hall).
    rewrite Hl in Hlog. apply app_inv_head in Hlog as ->. by destruct (Hno _ Hall Hin).
  - destruct Hc as (_ & _ & _ & l & Hl1 & Hall).
    rewrite Hl, Hl1, <- app_assoc in Hlog. apply app_inv_head in Hlog as <-.
    apply elem_of_app in Hin as [Hin|Hin]; [by destruct (Hno _ Hall Hin)|].
    apply list_elem_of_singleton in Hin. injection Hin as -> ->.
    split; [done|]. split; [apply last_snoc|]. split; [|done].
    by rewrite removelast_last.
  - destruct Hc as (_ & _ & _ & l & Hl1 & Hall).
    rewrite Hl, Hl1, <- app_assoc in Hlog. apply app_inv_head in Hlog as <-.
    apply elem_of_app in Hin as [Hin|Hin]; [by destruct (Hno _ Hall Hin)|].
    apply list_elem_of_singleton in Hin. discriminate.
Qed.

Lemma refused_insert_is_fatal_witness :
  ∃ res w' calls,
    api_send 1000 1005 hello six_taken = Some (res, w') ∧
    log w' = log six_taken ++ calls ∧
    InsertMessage (js "5555555") (Error UniqueViolation) ∈ calls ∧
    res = res_status_json 500 (error_body "Failed to save message") ∧
    last calls = Some (InsertMessage (js "5555555") (Error UniqueViolation)) ∧
    table w' = table six_taken.
Proof.
  assert (∃ res w' calls,
            api_send 1000 1005 hello six_taken = Some (res, w') ∧
            log w' = log six_taken ++ calls ∧
            calls = [SelectIdByCode (digits_code 0) (Data (Some 1));
                     SelectIdByCode (digits_code 1) (Data (Some 2));
                     SelectIdByCode (digits_code 2) (Data (Some 3));
                     SelectIdByCode (digits_code 3) (Data (Some 4));
                     SelectIdByCode (digits_code 4) (Data (Some 5));
                     InsertMessage (js "5555555") (Error UniqueViolation)])
    as (res & w' & calls & Hrun & Hlog & Hcalls).
  { eexists _, _, _. split; [vm_compute; reflexivity|].
    split; [vm_compute; reflexivity|]. vm_compute. reflexivity. }
  assert (InsertMessage (js "5555555") (Error UniqueViolation) ∈ calls) as Hin.
  { rewrite Hcalls. do 5 apply list_elem_of_further. apply list_elem_of_here. }
  destruct (refused_insert_is_fatal _ _ _ _ _ _ _ _ _ Hrun Hlog Hin)
    as (Hres & Hlast & _ & Ht).
  exists res, w', calls. by repeat split.
Defined.

(** The loop hands over a code in two ways: its last check found no row
    with that code, or every one of its checks, as many as it was allowed,
    found a row, and the code handed over was drawn after the last of
    them. *)
Lemma collision_loop_checks n : ∀ c w c' w',
  collision_loop n c w = Some (inr c', w') →
  ∃ calls, log w' = log w ++ calls ∧
    (last calls = Some (SelectIdByCode c' (Data None)) ∨
     (length calls = n ∧ Forall found_row calls)).
Proof.
  induction n as [|n IH]; intros c w c' w' H; simpl in H.
  - injection H as <- <-. exists []. split; [by rewrite app_nil_r|].
    right. by split.
  - run_step H e w1 E.
    destruct (db_select_id_by_code_run c w) as (e0 & w0 & E0 & _ & _ & _ & _ & Hl & _).
    rewrite E0 in E. injection E as <- <-.
    destruct e0 as [[i|]|err].
    + run_step H c1 w2 E2. apply nanoid_inv in E2 as (_ & _ & _ & _ & Hl2 & _).
      apply IH in H as (calls & Hlog & Hcases).
      exists (SelectIdByCode c (Data (Some i)) :: calls). split.
      { rewrite Hlog, Hl2, Hl, <- app_assoc. done. }
      destruct Hcases as [Hlast|[Hlen Hall]].
      * left. destruct calls; [discriminate|done].
      * right. split; [simpl; lia|]. by constructor.
    + injection H as <- <-. exists [SelectIdByCode c (Data None)]. split; [done|].
      by left.
    + discriminate.
Qed.

(** X8. Every row a send stores has a code that the check just before the
    insert found absent, except after five checks that each found a row:
    then the code stored is the sixth drawn, which no check comes after. *)
Lemma stored_code_checked_or_exhausted dn sn b w res w' :
  api_send dn sn b w = Some (res, w') →
  status res = 200 →
  ∃ c checks,
    log w' = log w ++ checks ++ [InsertMessage c (Data (new_row dn sn b w c))] ∧
    (last checks = Some (SelectIdByCode c (Data None)) ∨
     (length checks = 5%nat ∧ Forall found_row checks)).
Proof.
  unfold api_send. intros H Hs.
  destruct (send_validation b) as [r|] eqn:Ev.
  { injection H as <- <-. unfold send_validation in Ev.
    destruct (_ || _); [injection Ev as <-; simpl in Hs; lia|].
    destruct (_ <? _); [injection Ev as <-; simpl in Hs; lia|discriminate]. }
  run_step H c0 w1 E0. apply nanoid_inv in E0 as (Hg0 & Ht1 & Hn1 & _ & Hl1 & _).
  run_step H found w2 E1.
  destruct found as [r|c].
  { apply collision_loop_inv in E1 as [_ ->]; [|done].
    injection H as <- <-. simpl in Hs. lia. }
  pose proof E1 as E1'. apply collision_loop_checks in E1 as (checks & Hlog & Hcases).
  destruct (valid_date (dn + seven_days)); simpl in H.
  2:{ injection H as <- <-. simpl in Hs. lia. }
  run_step H ins w3 E3.
  destruct (db_insert_run sn (text_of (body_topic b)) (text_of (body_author b)) c
              (text_of (body_message b)) (dn + seven_days) w2)
    as (r & w3' & E3' & _ & _ & Hl3 & Hr).
  rewrite E3' in E3. injection E3 as <- <-.
  destruct r as [x|e].
  2:{ injection H as <- <-. simpl in Hs. lia. }
  destruct Hr as (-> & _). injection H as <- <-.
  exists c, checks. split; [|done].
  rewrite Hl3, Hlog, Hl1, <- app_assoc. unfold new_row.
  assert (next_id w2 = next_id w) as ->; [|done].
  destruct (collision_loop_inv _ _ _ _ _ E1' Hg0) as [(_ & Hn2 & _) _].
  by rewrite Hn2.
Qed.

(** C1: where the code departs from the claim. On [five_taken] each of the
    five collision checks finds an existing row; the handler then goes on
    with the sixth code it drew, which no check has looked up, and the row
    is written and answered with 200. *)
Theorem send_after_five_collisions :
  ∃ w',
    api_send 1000 1005 hello five_taken =
      Some (res_json (sent_json (new_row 1000 1005 hello five_taken (js "5555555"))), w') ∧
    table w' = table five_taken ++ [new_row 1000 1005 hello five_taken (js "5555555")] ∧
    log w' =
      [SelectIdByCode (js "0000000") (Data (Some 1));
       SelectIdByCode (js "1111111") (Data (Some 2));
       SelectIdByCode (js "2222222") (Data (Some 3));
       SelectIdByCode (js "3333333") (Data (Some 4));
       SelectIdByCode (js "4444444") (Data (Some 5));
       InsertMessage (js "5555555")
         (Data (new_row 1000 1005 hello five_taken (js "5555555")))].
Proof.
  eexists. split; [vm_compute; reflexivity|]. split; reflexivity.
Qed.

(* ===================================================================== *)
(** ** POST /api/receive: the claims *)
(* ===================================================================== *)

Lemma receiveLimiter_run now ip w :
  receiveLimiter now ip w =
    Some (if max_hits <? (window_after (hits w !! ip) now).1 then Some limited else None,
          set_hits (<[ip := window_after (hits w !! ip) now]> (hits w)) w).
Proof.
  unfold receiveLimiter, window_after. run_db.
  destruct (hits w !! ip) as [[n reset]|]; [destruct (reset <=? now)|];
    simpl; try reflexivity.
  by destruct (max_hits <? n + 1).
Qed.

Lemma live_rows_none c now t :
  (∀ r, r ∈ t → code r = c → expires_at r ≤ now) → live_rows c now t = [].
Proof.
  intros H. unfold live_rows.
  destruct (filter _ t) as [|r l] eqn:E; [done|].
  assert (r ∈ filter (λ r, code r = c ∧ now < expires_at r) t) as Hr.
  { rewrite E. apply list_elem_of_here. }
  apply list_elem_of_filter in Hr as [[Hc Hlt] Hin].
  specialize (H r Hin Hc). lia.
Qed.

(** The lookup: it changes nothing but the record of calls (and the pending
    faults), answers 200 only with a live row of the code asked for, and
    answers [not_found] when the code has no live row. *)
Lemma receive_handler_run dn c w :
  ∃ res w', receive_handler dn c w = Some (res, w') ∧
    table w' = table w ∧ next_id w' = next_id w ∧ hits w' = hits w ∧
    entropy w' = entropy w ∧
    (status res = 200 →
       ∃ r, r ∈ table w ∧ code r = text_of c ∧ dn < expires_at r ∧
            payload res = message_json r) ∧
    (truthy c = true → live_rows (text_of c) dn (table w) = [] → res = not_found).
Proof.
  unfold receive_handler. destruct (truthy c) eqn:Ec; simpl.
  2:{ eexists _, _. split; [reflexivity|]. simpl. repeat split; try done; lia. }
  run_db. destruct (default false (head (faults w))).
  { eexists _, _. split; [reflexivity|]. simpl. repeat split; try done; lia. }
  destruct (live_rows (text_of c) dn (table w)) as [|r [|r' l]] eqn:El; simpl.
  - eexists _, _. split; [reflexivity|]. simpl. repeat split; try done; lia.
  - eexists _, _. split; [reflexivity|]. simpl. repeat split; try done.
    intros _. exists r.
    assert (r ∈ live_rows (text_of c) dn (table w)) as Hr.
    { rewrite El. apply list_elem_of_here. }
    apply list_elem_of_filter in Hr as [[Hc Hlt] Hin]. by repeat split.
  - eexists _, _. split; [reflexivity|]. simpl. repeat split; try done; lia.
Qed.

(** The route: the limiter answers, or the handler runs on a world in which
    only the counters have changed. *)
Lemma api_receive_run ln dn ip c w res w' :
  api_receive ln dn ip c w = Some (res, w') →
  (res = limited ∧ w' = set_hits (<[ip := window_after (hits w !! ip) ln]> (hits w)) w) ∨
  (receive_handler dn c
     (set_hits (<[ip := window_after (hits w !! ip) ln]> (hits w)) w) = Some (res, w')).
Proof.
  unfold api_receive. intros H. run_step H v w1 E.
  rewrite receiveLimiter_run in E. injection E as <- <-.
  destruct (max_hits <? _).
  - left. by injection H as <- <-.
  - by right.
Qed.

(** What the route answers when it is not the limiter that answers. *)
Lemma api_receive_lookup ln dn ip c w res w' :
  api_receive ln dn ip c w = Some (res, w') →
  status res ≠ 429 →
  table w' = table w ∧
  (status res = 200 →
     ∃ r, r ∈ table w ∧ code r = text_of c ∧ dn < expires_at r ∧
          payload res = message_json r) ∧
  (truthy c = true → live_rows (text_of c) dn (table w) = [] → res = not_found).
Proof.
  intros H Hs. apply api_receive_run in H as [[-> _]|H]; [by destruct Hs|].
  destruct (receive_handler_run dn c
              (set_hits (<[ip := window_after (hits w !! ip) ln]> (hits w)) w))
    as (res0 & w0 & E & Ht & _ & _ & _ & H200 & H404).
  rewrite E in H. by injection H as <- <-.
Qed.

(** C3. A receive request is answered with a message only if a row of the
    table has the code asked for and an [expires_at] strictly after the
    instant read by the handler; and when every row with that code has
    [expires_at <= now] (the row is still in the table) a request that got
    past the limiter is answered 404 "Invalid or expired code", the table
    being left as it was. *)
Theorem receive_only_live ln dn ip c w res w' :
  api_receive ln dn ip c w = Some (res, w') →
  (status res = 200 →
     ∃ r, r ∈ table w ∧ code r = text_of c ∧ dn < expires_at r ∧
          payload res = message_json r) ∧
  (truthy c = true →
   (∀ r, r ∈ table w → code r = text_of c → expires_at r ≤ dn) →
   status res ≠ 429 →
   res = not_found ∧ table w' = table w).
Proof.
  intros H. split.
  - intros Hs. apply (api_receive_lookup _ _ _ _ _ _ _ H); [lia|done].
  - intros Hc Hexp Hs.
    destruct (api_receive_lookup _ _ _ _ _ _ _ H Hs) as (Ht & _ & H404).
    split; [|done]. apply H404; [done|]. by apply live_rows_none.
Qed.

Lemma receive_only_live_witness :
  (∃ res w', api_receive (10 + seven_days) (10 + seven_days) "203.0.113.7"
               (Some (js "0000000")) just_expired = Some (res, w') ∧
             res = not_found ∧ table w' = table just_expired) ∧
  (∃ res w' r, api_receive (9 + seven_days) (9 + seven_days) "203.0.113.7"
                 (Some (js "0000000")) just_expired = Some (res, w') ∧
               status res = 200 ∧ r ∈ table just_expired ∧
               9 + seven_days < expires_at r ∧ payload res = message_json r).
Proof.
  split.
  - assert (∃ res w', api_receive (10 + seven_days) (10 + seven_days) "203.0.113.7"
                        (Some (js "0000000")) just_expired = Some (res, w'))
      as (res & w' & Hrun).
    { eexists _, _. vm_compute. reflexivity. }
    exists res, w'. split; [exact Hrun|].
    apply (proj2 (receive_only_live _ _ _ _ _ _ _ Hrun)).
    + reflexivity.
    + intros r Hr _. apply list_elem_of_singleton in Hr as ->. simpl. lia.
    + vm_compute in Hrun. injection Hrun as <- _. discriminate.
  - assert (∃ res w', api_receive (9 + seven_days) (9 + seven_days) "203.0.113.7"
                        (Some (js "0000000")) just_expired = Some (res, w') ∧
                      status res = 200)
      as (res & w' & Hrun & Hs).
    { eexists _, _. split; [vm_compute; reflexivity|reflexivity]. }
    destruct (proj1 (receive_only_live _ _ _ _ _ _ _ Hrun) Hs) as (r & Hin & _ & Hlt & Hp).
    by exists res, w', r.
Defined.

(** C4. Two receive requests that got past the limiter, one for a code that
    exists only in rows that have expired, one for a code no row has, are
    answered alike: both with status 404 and the body
    [{ error: 'Invalid or expired code' }]. *)
Theorem expired_and_unknown_alike
    ln1 dn1 ip1 c1 w1 res1 w1' ln2 dn2 ip2 c2 w2 res2 w2' :
  c1 ≠ [] → c2 ≠ [] →
  api_receive ln1 dn1 ip1 (Some c1) w1 = Some (res1, w1') →
  api_receive ln2 dn2 ip2 (Some c2) w2 = Some (res2, w2') →
  status res1 ≠ 429 → status res2 ≠ 429 →
  (∃ r, r ∈ table w1 ∧ code r = c1) →
  (∀ r, r ∈ table w1 → code r = c1 → expires_at r ≤ dn1) →
  (∀ r, r ∈ table w2 → code r ≠ c2) →
  res1 = res2 ∧ status res1 = 404 ∧
  payload res1 = error_body "Invalid or expired code".
Proof.
  intros Hc1 Hc2 H1 H2 Hs1 Hs2 _ Hexp Hnone.
  destruct (api_receive_lookup _ _ _ _ _ _ _ H1 Hs1) as (_ & _ & Hnf1).
  destruct (api_receive_lookup _ _ _ _ _ _ _ H2 Hs2) as (_ & _ & Hnf2).
  rewrite Hnf1, Hnf2; [done| | | |].
  - by destruct c2.
  - apply live_rows_none. intros r Hr Hc. by destruct (Hnone r Hr).
  - by destruct c1.
  - by apply live_rows_none.
Qed.

Lemma expired_and_unknown_alike_witness :
  ∃ res1 w1' res2 w2',
    api_receive (10 + seven_days) (10 + seven_days) "203.0.113.7"
      (Some (js "0000000")) just_expired = Some (res1, w1') ∧
    api_receive 5 5 "198.51.100.9" (Some (js "zzzzzzz")) fresh_world = Some (res2, w2') ∧
    res1 = res2 ∧ status res1 = 404.
Proof.
  assert (∃ res1 w1', api_receive (10 + seven_days) (10 + seven_days) "203.0.113.7"
                        (Some (js "0000000")) just_expired = Some (res1, w1') ∧
                      status res1 ≠ 429) as (res1 & w1' & H1 & Hs1).
  { eexists _, _. split; [vm_compute; reflexivity|discriminate]. }
  assert (∃ res2 w2', api_receive 5 5 "198.51.100.9" (Some (js "zzzzzzz")) fresh_world
                        = Some (res2, w2') ∧
                      status res2 ≠ 429) as (res2 & w2' & H2 & Hs2).
  { eexists _, _. split; [vm_compute; reflexivity|discriminate]. }
  exists res1, w1', res2, w2'. split; [exact H1|]. split; [exact H2|].
  assert (js "0000000" ≠ []) as Hn1 by discriminate.
  assert (js "zzzzzzz" ≠ []) as Hn2 by discriminate.
  destruct (expired_and_unknown_alike _ _ _ _ _ _ _ _ _ _ _ _ _ _ Hn1 Hn2 H1 H2 Hs1 Hs2)
    as (Heq & Hst & _).
  - eexists. split; [apply list_elem_of_here|reflexivity].
  - intros r Hr _. apply list_elem_of_singleton in Hr as ->. simpl. lia.
  - intros r Hr. by apply elem_of_nil in Hr.
  - by split.
Defined.

Lemma api_receive_returns ln dn ip c w :
  ∃ res w', api_receive ln dn ip c w = Some (res, w').
Proof.
  unfold api_receive, bind. rewrite receiveLimiter_run.
  destruct (max_hits <? _); [by eexists _, _|].
  destruct (receive_handler_run dn c
              (set_hits (<[ip := window_after (hits w !! ip) ln]> (hits w)) w))
    as (res & w' & E & _).
  by eexists _, _.
Qed.

Lemma api_receive_hits ln dn ip c w res w' :
  api_receive ln dn ip c w = Some (res, w') →
  hits w' = <[ip := window_after (hits w !! ip) ln]> (hits w).
Proof.
  intros H. apply api_receive_run in H as [[_ ->]|H]; [done|].
  destruct (receive_handler_run dn c
              (set_hits (<[ip := window_after (hits w !! ip) ln]> (hits w)) w))
    as (res0 & w0 & E & _ & _ & Hh & _).
  rewrite E in H. by injection H as <- <-.
Qed.

(** A request in an open window that already counts [max] hits is answered
    by the limiter; nothing of the world changes but the counter. *)
Lemma api_receive_limited ln dn ip c w n reset :
  hits w !! ip = Some (n, reset) → ln < reset → max_hits ≤ n →
  api_receive ln dn ip c w =
    Some (limited, set_hits (<[ip := (n + 1, reset)]> (hits w)) w).
Proof.
  intros Hh Hlt Hn. unfold api_receive, bind. rewrite receiveLimiter_run.
  rewrite Hh. unfold window_after.
  destruct (Z.leb_spec reset ln); [lia|]. simpl.
  destruct (Z.ltb_spec max_hits (n + 1)); [done|lia].
Qed.

(** While the window of [ip] is open, every request from [ip] adds one to
    its counter, and requests from other addresses leave it alone. *)
Lemma serve_counts ip reset : ∀ reqs w rs w' n,
  hits w !! ip = Some (n, reset) →
  Forall (λ q, req_ip q = ip → req_limiter_now q < reset) reqs →
  serve reqs w = Some (rs, w') →
  hits w' !! ip =
    Some (n + Z.of_nat (length (filter (λ q, req_ip q = ip) reqs)), reset).
Proof.
  induction reqs as [|q reqs IH]; intros w rs w' n Hh Hall H; simpl in H.
  - injection H as <- <-. rewrite Hh. f_equal. f_equal. simpl. lia.
  - apply Forall_cons in Hall as [Hq Hall].
    run_step H r w1 E. run_step H rs' w2 E2. injection H as <- <-.
    apply api_receive_hits in E. rewrite filter_cons.
    destruct (decide (req_ip q = ip)) as [Heq|Hne].
    + rewrite Heq, Hh in E. unfold window_after in E.
      destruct (Z.leb_spec reset (req_limiter_now q)); [specialize (Hq Heq); lia|].
      rewrite (IH w1 rs' w2 (n + 1)); [| |done|done].
      * f_equal. f_equal. simpl. lia.
      * rewrite E. apply lookup_insert_eq.
    + apply (IH w1 rs' w2 n); [|done|done].
      rewrite E. by rewrite lookup_insert_ne.
Qed.

(** C8, as the claim states it, fails: the window of the limiter is fixed,
    it does not slide. Of [straddling_receives] the last six requests lie
    within six milliseconds, so that five attempts of the address have been
    made within 60 seconds when the last one arrives; yet the window opened
    at instant 0 has ended at 60000, and the last request, the sixth within
    those 60 seconds, is served: it is answered 200 and its lookup is the
    seventh call recorded on the store. *)
Lemma sixth_within_a_minute_served :
  ∃ rs w',
    serve straddling_receives just_expired = Some (rs, w') ∧
    Forall (λ q, req_ip q = "203.0.113.7"%string ∧
                 59996 ≤ req_limiter_now q < 59996 + 60 * 1000)
           (tail straddling_receives) ∧
    length (tail straddling_receives) = 6%nat ∧
    status <$> rs = [200; 200; 200; 200; 200; 200; 200] ∧
    length (log w') = 7%nat ∧
    last (log w') =
      Some (SelectLiveByCode (js "0000000") 60001
              (Data (Row 1 (js "t") (js "a") (js "0000000") (js "m") 10
                         (10 + seven_days)))).
Proof.
  eexists _, _. split; [vm_compute; reflexivity|].
  split; [repeat constructor; simpl; lia|].
  split; [reflexivity|]. split; [reflexivity|]. split; reflexivity.
Qed.

(** C8, amended. For every client address: when a request of the address
    has opened a window of the limiter (the address had none, or its last
    one had ended) and at least four more of its requests have been served
    within the 60 seconds of that window (among requests of any other
    addresses), every further receive request of the address within those
    60 seconds is answered 429 with the rate-limit payload, and the store
    is not touched: no call on it is recorded and its table, its sequence
    and the pending faults are as before. In particular this holds for the
    sixth request within the 60 seconds that follow the request that opened
    the window. *)
Theorem further_receive_rejected ip w first rest rs w5 t d c :
  req_ip first = ip →
  no_window w ip (req_limiter_now first) →
  Forall (λ q, req_ip q = ip →
               req_limiter_now first ≤ req_limiter_now q
               < req_limiter_now first + 60 * 1000) rest →
  (4 ≤ length (filter (λ q, req_ip q = ip) rest))%nat →
  serve (first :: rest) w = Some (rs, w5) →
  req_limiter_now first ≤ t < req_limiter_now first + 60 * 1000 →
  ∃ w', api_receive t d ip c w5 = Some (limited, w') ∧
        log w' = log w5 ∧ table w' = table w5 ∧ next_id w' = next_id w5 ∧
        faults w' = faults w5 ∧ entropy w' = entropy w5.
Proof.
  intros Hip Hnw Hall Hlen H Ht. simpl in H.
  run_step H r w1 E. run_step H rs' w2 E2. injection H as <- <-.
  apply api_receive_hits in E. rewrite Hip in E.
  assert (hits w1 !! ip = Some (1, req_limiter_now first + windowMs)) as Hh1.
  { rewrite E, lookup_insert_eq. f_equal. unfold window_after, no_window in *.
    destruct (hits w !! ip) as [[n reset]|]; [|done].
    destruct (Z.leb_spec reset (req_limiter_now first)); [done|lia]. }
  assert (hits w2 !! ip =
            Some (1 + Z.of_nat (length (filter (λ q, req_ip q = ip) rest)),
                  req_limiter_now first + windowMs)) as Hh2.
  { apply (serve_counts ip _ rest w1 rs'); [done| |done].
    eapply Forall_impl; [exact Hall|].
    simpl. intros q Hq Hi. specialize (Hq Hi). unfold windowMs. lia. }
  eexists. split.
  - apply (api_receive_limited _ _ _ _ _ _ _ Hh2).
    + unfold windowMs. lia.
    + unfold max_hits. lia.
  - done.
Qed.

Lemma further_receive_rejected_witness :
  ∃ rs w5 w',
    serve five_receives just_expired = Some (rs, w5) ∧
    status <$> rs = [200; 404; 200; 404; 404; 404] ∧
    api_receive 59999 60000 "203.0.113.7" (Some (js "0000000")) w5 = Some (limited, w') ∧
    log w' = log w5 ∧ table w' = table w5.
Proof.
  assert (∃ rs w5, serve five_receives just_expired = Some (rs, w5) ∧
                   status <$> rs = [200; 404; 200; 404; 404; 404])
    as (rs & w5 & Hrun & Hst).
  { eexists _, _. split; [vm_compute; reflexivity|reflexivity]. }
  exists rs, w5.
  destruct (further_receive_rejected "203.0.113.7" just_expired
              (ReceiveReq "203.0.113.7" 0 0 (Some (js "0000000")))
              (tail five_receives) rs w5 59999 60000 (Some (js "0000000")))
    as (w' & H & Hl & Ht & _).
  - reflexivity.
  - exact I.
  - repeat constructor; simpl; intros; lia.
  - vm_compute. lia.
  - exact Hrun.
  - simpl. lia.
  - exists w'. by repeat split.
Defined.

(* ===================================================================== *)
(** ** Admin routes: the claims *)
(* ===================================================================== *)

Lemma requireAdmin_None K key : requireAdmin K key = None ↔ authorized K key.
Proof.
  unfold requireAdmin, authorized, strict_neq. split.
  - destruct K as [[|k0 k]|]; simpl; [discriminate| |discriminate].
    destruct (decide (key = Some (k0 :: k))) as [->|Hne].
    + intros _. by exists (k0 :: k).
    + rewrite bool_decide_eq_false_2 by done. discriminate.
  - intros (k & Hk & -> & ->). destruct k as [|k0 k]; [done|]. simpl.
    by rewrite bool_decide_eq_true_2.
Qed.

Lemma requireAdmin_Some K key res :
  requireAdmin K key = Some res → res = unauthorized.
Proof.
  unfold requireAdmin. destruct (_ || _); [|discriminate]. by intros [= <-].
Qed.

Lemma admin_list_run K key w :
  authorized K key →
  ∃ res w', admin_list K key w = Some (res, w') ∧ table w' = table w ∧
    (status res = 200 ∨ status res = 500) ∧ (store_up w → status res = 200).
Proof.
  intros Ha. apply requireAdmin_None in Ha. unfold admin_list. rewrite Ha.
  run_db. unfold store_up.
  destruct (head (faults w)) as [[|]|]; simpl;
    (eexists _, _; split; [reflexivity|]; simpl; repeat split; auto; done).
Qed.

Lemma admin_delete_run K key i w :
  authorized K key →
  ∃ res w', admin_delete K key i w = Some (res, w') ∧
    (status res = 200 ∨ status res = 500) ∧
    (store_up w → is_bigint i = true →
       res = res_json (JObj [("ok"%string, JBool true)]) ∧
       table w' = filter (λ r, id r ≠ i) (table w)).
Proof.
  intros Ha. apply requireAdmin_None in Ha. unfold admin_delete. rewrite Ha.
  run_db. unfold store_up.
  destruct (head (faults w)) as [[|]|]; simpl.
  { eexists _, _. split; [reflexivity|]. simpl. split; [auto|done]. }
  all: destruct (is_bigint i); simpl.
  all: eexists _, _; (split; [reflexivity|]); simpl; split; auto; done.
Qed.

(** C9. An admin request (list or delete) gets past [requireAdmin] if and
    only if the configured admin key is a non-empty string and the
    [x-admin-key] header equals it: then the route runs and answers 200
    (500 only when the store fails), otherwise the answer is 401 and the
    world is untouched. In particular with ADMIN_KEY unset or empty every
    admin request is answered 401, also one that carries no header. *)
Theorem admin_gate K key i w :
  (requireAdmin K key = None ↔ authorized K key) ∧
  (authorized K key →
     ∃ res1 w1 res2 w2,
       admin_list K key w = Some (res1, w1) ∧
       admin_delete K key i w = Some (res2, w2) ∧
       status res1 ≠ 401 ∧ status res2 ≠ 401 ∧
       (store_up w → status res1 = 200 ∧ (is_bigint i = true → status res2 = 200))) ∧
  (¬ authorized K key →
     admin_list K key w = Some (unauthorized, w) ∧
     admin_delete K key i w = Some (unauthorized, w)) ∧
  (truthy K = false → ¬ authorized K key).
Proof.
  split; [apply requireAdmin_None|]. split; [|split].
  - intros Ha.
    destruct (admin_list_run K key w Ha) as (res1 & w1 & E1 & _ & Hs1 & Hup1).
    destruct (admin_delete_run K key i w Ha) as (res2 & w2 & E2 & Hs2 & Hup2).
    exists res1, w1, res2, w2. split; [done|]. split; [done|].
    split; [lia|]. split; [lia|]. intros Hup. split; [by apply Hup1|].
    intros Hi. by destruct (Hup2 Hup Hi) as [-> _].
  - intros Hn. unfold admin_list, admin_delete.
    destruct (requireAdmin K key) as [res|] eqn:E.
    + apply requireAdmin_Some in E as ->. done.
    + by apply requireAdmin_None in E.
  - intros Hk (k & Hne & -> & _). by destruct k.
Qed.

Lemma admin_gate_witness :
  (∃ res1 w1 res2 w2,
     admin_list (Some (js "s3cret")) (Some (js "s3cret")) five_taken = Some (res1, w1) ∧
     admin_delete (Some (js "s3cret")) (Some (js "s3cret")) 3 five_taken = Some (res2, w2) ∧
     status res1 = 200 ∧ status res2 = 200) ∧
  admin_list None None five_taken = Some (unauthorized, five_taken) ∧
  admin_delete (Some []) (Some []) 3 five_taken = Some (unauthorized, five_taken).
Proof.
  split; [|split].
  - destruct (proj1 (proj2 (admin_gate (Some (js "s3cret")) (Some (js "s3cret")) 3 five_taken)))
      as (res1 & w1 & res2 & w2 & E1 & E2 & _ & _ & Hup).
    { exists (js "s3cret"). by repeat split. }
    exists res1, w1, res2, w2. split; [done|]. split; [done|].
    destruct Hup as [H1 H2]; [discriminate|]. split; [done|]. by apply H2.
  - apply (proj1 (proj2 (proj2 (admin_gate None None 3 five_taken)))).
    apply (proj2 (proj2 (proj2 (admin_gate None None 3 five_taken)))). reflexivity.
  - apply (proj1 (proj2 (proj2 (admin_gate (Some []) (Some []) 3 five_taken)))).
    apply (proj2 (proj2 (proj2 (admin_gate (Some []) (Some []) 3 five_taken)))). reflexivity.
Defined.

(** C10. An authorized admin delete answers [{ ok: true }] whether or not
    a row has the id given (a [bigint], the store call not failing): when
    no row has it the table is left as it was and the answer is the same as
    for an id that is there. *)
Theorem delete_absent_succeeds K key i w :
  authorized K key → is_bigint i = true → store_up w →
  ∃ w', admin_delete K key i w =
          Some (res_json (JObj [("ok"%string, JBool true)]), w') ∧
        table w' = filter (λ r, id r ≠ i) (table w) ∧
        ((∀ r, r ∈ table w → id r ≠ i) → table w' = table w).
Proof.
  intros Ha Hi Hup.
  destruct (admin_delete_run K key i w Ha) as (res & w' & E & _ & H).
  destruct (H Hup Hi) as [-> Ht].
  exists w'. split; [done|]. split; [done|].
  intros Hnone. rewrite Ht. clear -Hnone.
  induction (table w) as [|r t IH]; [done|].
  rewrite filter_cons_True by (apply Hnone; apply list_elem_of_here).
  f_equal. apply IH. intros x Hx. apply Hnone. by apply list_elem_of_further.
Qed.

Lemma delete_absent_succeeds_witness :
  ∃ w1 w2,
    admin_delete (Some (js "s3cret")) (Some (js "s3cret")) 99 five_taken =
      Some (res_json (JObj [("ok"%string, JBool true)]), w1) ∧
    table w1 = table five_taken ∧
    admin_delete (Some (js "s3cret")) (Some (js "s3cret")) 3 five_taken =
      Some (res_json (JObj [("ok"%string, JBool true)]), w2) ∧
    length (table w2) = 4%nat.
Proof.
  assert (authorized (Some (js "s3cret")) (Some (js "s3cret"))) as Ha.
  { exists (js "s3cret"). by repeat split. }
  assert (store_up five_taken) as Hup by discriminate.
  destruct (delete_absent_succeeds _ _ 99 five_taken Ha eq_refl Hup) as (w1 & E1 & _ & H1).
  destruct (delete_absent_succeeds _ _ 3 five_taken Ha eq_refl Hup) as (w2 & E2 & H2 & _).
  exists w1, w2. split; [done|]. split.
  - apply H1. intros r Hr. unfold five_taken in Hr. cbn [table] in Hr.
    repeat (apply elem_of_cons in Hr as [->|Hr]; [simpl; lia|]).
    by apply elem_of_nil in Hr.
  - split; [done|]. rewrite H2. reflexivity.
Defined.

(* ===================================================================== *)
(** ** Further properties: the lookup *)
(* ===================================================================== *)

Lemma live_rows_of_rows c now t :
  live_rows c now t = filter (λ r, now < expires_at r) (rows_with_code c t).
Proof.
  unfold live_rows, rows_with_code. induction t as [|x t IH]; [done|].
  rewrite !filter_cons. destruct (decide (code x = c)) as [Hc|Hc].
  - rewrite filter_cons. destruct (decide (now < expires_at x)) as [Hl|Hl].
    + rewrite decide_True by done. by rewrite IH.
    + rewrite decide_False by tauto. done.
  - rewrite decide_False by tauto. done.
Qed.

Lemma live_rows_app c now t1 t2 :
  live_rows c now (t1 ++ t2) = live_rows c now t1 ++ live_rows c now t2.
Proof. unfold live_rows. apply filter_app. Qed.

Lemma live_rows_later c t1 t2 t :
  t1 ≤ t2 →
  live_rows c t2 t = filter (λ r, t2 < expires_at r) (live_rows c t1 t).
Proof.
  intros Hle. unfold live_rows. induction t as [|x t IH]; [done|].
  rewrite !filter_cons.
  destruct (decide (code x = c ∧ t2 < expires_at x)) as [[Hc Hl]|Hn].
  - rewrite decide_True by (split; [done|lia]).
    rewrite filter_cons, decide_True by done. by rewrite IH.
  - destruct (decide (code x = c ∧ t1 < expires_at x)) as [[Hc Hl]|Hn1]; [|done].
    rewrite filter_cons, decide_False by tauto. done.
Qed.

Lemma rows_with_code_deleted c i t :
  rows_with_code c (filter (λ r, id r ≠ i) t) =
  filter (λ r, id r ≠ i) (rows_with_code c t).
Proof.
  unfold rows_with_code. induction t as [|x t IH]; [done|].
  rewrite !filter_cons.
  destruct (decide (id x ≠ i)) as [Hi|Hi], (decide (code x = c)) as [Hc|Hc];
    rewrite ?filter_cons, ?decide_True, ?decide_False by done; by rewrite ?IH.
Qed.

(** In a list without two rows of the same code, a code names its row. *)
Lemma unique_code_row t r r' :
  NoDup (code <$> t) → r ∈ t → r' ∈ t → code r' = code r → r' = r.
Proof.
  induction t as [|x t IH]; intros Hnd Hr Hr' Hc; [by apply elem_of_nil in Hr|].
  rewrite fmap_cons in Hnd. apply NoDup_cons in Hnd as [Hx Hnd].
  apply elem_of_cons in Hr as [->|Hr], Hr' as [->|Hr']; [done| | |by apply IH].
  - destruct Hx. rewrite <- Hc. by apply list_elem_of_fmap_2.
  - destruct Hx. rewrite Hc. by apply list_elem_of_fmap_2.
Qed.

(** A lookup answered 200 has found exactly one live row. *)
Lemma receive_handler_200 dn c w res w' :
  receive_handler dn c w = Some (res, w') →
  status res = 200 →
  truthy c = true ∧
  ∃ r, live_rows (text_of c) dn (table w) = [r] ∧ res = res_json (message_json r).
Proof.
  unfold receive_handler. destruct (truthy c); simpl.
  2:{ intros H Hs. injection H as <- <-. simpl in Hs. lia. }
  run_db. destruct (default false (head (faults w))).
  { intros H Hs. injection H as <- <-. simpl in Hs. lia. }
  destruct (live_rows (text_of c) dn (table w)) as [|r [|r' l]] eqn:El; simpl;
    intros H Hs; injection H as <- <-; simpl in Hs; try lia.
  split; [done|]. by exists r.
Qed.

(** The lookup of a non-empty code when the store call does not fail. *)
Lemma receive_handler_up dn c w res w' :
  receive_handler dn c w = Some (res, w') →
  truthy c = true → store_up w →
  res = match live_rows (text_of c) dn (table w) with
        | [r] => res_json (message_json r)
        | _ => not_found
        end.
Proof.
  unfold receive_handler, store_up. intros H Hc Hup. rewrite Hc in H. simpl in H.
  revert H. run_db. destruct (head (faults w)) as [[|]|]; [done| |]; simpl.
  all: destruct (live_rows (text_of c) dn (table w)) as [|r [|r' l]]; simpl.
  all: by intros [= <- <-].
Qed.

(** A request that the limiter lets through is answered by the handler on
    the same table, with the same pending faults. *)
Lemma api_receive_passed ln dn ip c w res w' :
  api_receive ln dn ip c w = Some (res, w') →
  status res ≠ 429 →
  ∃ w0, receive_handler dn c w0 = Some (res, w') ∧
        table w0 = table w ∧ faults w0 = faults w ∧ table w' = table w.
Proof.
  intros H Hs. apply api_receive_run in H as [[-> _]|H]; [by destruct Hs|].
  eexists. split; [exact H|]. split; [done|]. split; [done|].
  destruct (receive_handler_run dn c
              (set_hits (<[ip := window_after (hits w !! ip) ln]> (hits w)) w))
    as (res0 & w0 & E & Ht & _).
  rewrite E in H. by injection H as <- <-.
Qed.

(** X2. The lookup does not use a code up: a second receive request for a code
    that has just been answered with its message, made while the message has
    not expired, the store answering and the limiter letting it through, is
    answered with the same message, and the table is what it was before the
    two requests. *)
Theorem receive_twice_same ln1 t1 ip1 ln2 t2 ip2 c w res1 w1 res2 w2 r :
  api_receive ln1 t1 ip1 c w = Some (res1, w1) →
  status res1 = 200 →
  payload res1 = message_json r →
  api_receive ln2 t2 ip2 c w1 = Some (res2, w2) →
  status res2 ≠ 429 →
  store_up w1 →
  t1 ≤ t2 < expires_at r →
  res2 = res1 ∧ table w2 = table w.
Proof.
  intros H1 Hs1 Hp H2 Hs2 Hup [Hle Hlt].
  destruct (api_receive_passed _ _ _ _ _ _ _ H1) as (wa & Ha & Hta & _ & Ht1);
    [lia|].
  destruct (receive_handler_200 _ _ _ _ _ Ha Hs1) as (Hc & r0 & Hlive & ->).
  rewrite Hta in Hlive. simpl in Hp. injection Hp as _ _ _ _ _ Hexp.
  destruct (api_receive_passed _ _ _ _ _ _ _ H2 Hs2) as (wb & Hb & Htb & Hfb & Ht2).
  split; [|congruence].
  rewrite (receive_handler_up _ _ _ _ _ Hb Hc).
  - rewrite Htb, Ht1, (live_rows_later _ t1 t2) by done. rewrite Hlive.
    rewrite filter_cons, decide_True by lia. done.
  - unfold store_up. by rewrite Hfb.
Qed.

Lemma receive_twice_same_witness :
  ∃ res1 w1 res2 w2,
    api_receive 0 5 "203.0.113.7" (Some (js "0000000")) just_expired = Some (res1, w1) ∧
    api_receive 100 (9 + seven_days) "203.0.113.7" (Some (js "0000000")) w1 = Some (res2, w2) ∧
    status res1 = 200 ∧ res2 = res1 ∧ table w2 = table just_expired.
Proof.
  assert (∃ res1 w1 res2 w2,
    api_receive 0 5 "203.0.113.7" (Some (js "0000000")) just_expired = Some (res1, w1) ∧
    api_receive 100 (9 + seven_days) "203.0.113.7" (Some (js "0000000")) w1 = Some (res2, w2) ∧
    status res1 = 200 ∧ status res2 ≠ 429 ∧ store_up w1 ∧
    payload res1 = message_json (Row 1 (js "t") (js "a") (js "0000000") (js "m") 10 (10 + seven_days)))
    as (res1 & w1 & res2 & w2 & H1 & H2 & Hs1 & Hs2 & Hup & Hp).
  { eexists _, _, _, _. split; [vm_compute; reflexivity|].
    split; [vm_compute; reflexivity|]. split; [reflexivity|].
    split; [discriminate|]. split; [discriminate|reflexivity]. }
  destruct (receive_twice_same _ _ _ _ _ _ _ _ _ _ _ _ _ H1 Hs1 Hp H2 Hs2 Hup) as [He Ht].
  { simpl. unfold seven_days. lia. }
  by exists res1, w1, res2, w2.
Defined.

Lemma rows_none_live_none c now t : rows_with_code c t = [] → live_rows c now t = [].
Proof. intros H. by rewrite live_rows_of_rows, H. Qed.

Lemma good_code_nonempty c : good_code c → c ≠ [].
Proof. intros [Hl _] ->. discriminate. Qed.

(** X1. Round trip. The code a send answers with names the message sent: a
    receive request with that code, made on the world the send has left,
    the store answering and the limiter letting it through, is answered with
    the topic, author and message of the send (and the store's [id] and
    [created_at]) at every instant before [Date.now() + 7 days] of the send,
    and with 404 from that instant on. *)
Theorem send_then_receive dn sn b w res w1 :
  api_send dn sn b w = Some (res, w1) →
  status res = 200 →
  ∃ i c,
    payload res = JObj [("id"%string, JNum i); ("code"%string, JStr c);
                        ("expires_at"%string, JNum (dn + seven_days))] ∧
    ∀ ln t ip res2 w2,
      store_up w1 →
      api_receive ln t ip (Some c) w1 = Some (res2, w2) →
      status res2 ≠ 429 →
      (t < dn + seven_days →
         res2 = res_json (JObj [("id"%string, JNum i);
                                ("topic"%string, JStr (text_of (body_topic b)));
                                ("author"%string, JStr (text_of (body_author b)));
                                ("message"%string, JStr (text_of (body_message b)));
                                ("created_at"%string, JNum sn);
                                ("expires_at"%string, JNum (dn + seven_days))])) ∧
      (dn + seven_days ≤ t → res2 = not_found).
Proof.
  intros H Hs.
  destruct (api_send_200 _ _ _ _ _ _ H Hs) as (c & Hg & Hfree & -> & Ht).
  exists (js_number (next_id w)), c. split; [done|].
  intros ln t ip res2 w2 Hup H2 Hs2.
  destruct (api_receive_passed _ _ _ _ _ _ _ H2 Hs2) as (w0 & H0 & Ht0 & Hf0 & _).
  assert (truthy (Some c) = true) as Hc.
  { pose proof (good_code_nonempty _ Hg). by destruct c. }
  assert (store_up w0) as Hup0 by (unfold store_up in *; by rewrite Hf0).
  rewrite (receive_handler_up _ _ _ _ _ H0 Hc Hup0), Ht0, Ht, live_rows_app.
  rewrite (rows_none_live_none _ _ _ Hfree). simpl.
  unfold live_rows, new_row. rewrite filter_cons. simpl.
  split; intros Hlt.
  - by rewrite decide_True by done.
  - by rewrite decide_False by lia.
Qed.

Lemma send_then_receive_witness :
  ∃ res w1 res2 w2 res3 w3,
    api_send 1000 1005 hello fresh_world = Some (res, w1) ∧
    status res = 200 ∧
    api_receive 2000 2000 "203.0.113.7" (Some (js "0000000")) w1 = Some (res2, w2) ∧
    payload res2 = JObj [("id"%string, JNum 1); ("topic"%string, JStr (js "t"));
                         ("author"%string, JStr (js "a"));
                         ("message"%string, JStr (js "hello"));
                         ("created_at"%string, JNum 1005);
                         ("expires_at"%string, JNum (1000 + seven_days))] ∧
    api_receive 2000 (1000 + seven_days) "203.0.113.7" (Some (js "0000000")) w1
      = Some (res3, w3) ∧
    res3 = not_found.
Proof.
  assert (∃ res w1 res2 w2 res3 w3,
    api_send 1000 1005 hello fresh_world = Some (res, w1) ∧
    status res = 200 ∧
    payload res = JObj [("id"%string, JNum 1); ("code"%string, JStr (js "0000000"));
                        ("expires_at"%string, JNum (1000 + seven_days))] ∧
    store_up w1 ∧
    api_receive 2000 2000 "203.0.113.7" (Some (js "0000000")) w1 = Some (res2, w2) ∧
    status res2 ≠ 429 ∧
    api_receive 2000 (1000 + seven_days) "203.0.113.7" (Some (js "0000000")) w1
      = Some (res3, w3) ∧
    status res3 ≠ 429)
    as (res & w1 & res2 & w2 & res3 & w3 & H & Hs & Hp & Hup & H2 & Hs2 & H3 & Hs3).
  { eexists _, _, _, _, _, _. split; [vm_compute; reflexivity|].
    split; [reflexivity|]. split; [reflexivity|]. split; [discriminate|].
    split; [vm_compute; reflexivity|]. split; [discriminate|].
    split; [vm_compute; reflexivity|discriminate]. }
  destruct (send_then_receive _ _ _ _ _ _ H Hs) as (i & c & Hp' & Hrt).
  rewrite Hp in Hp'. injection Hp' as <- <-.
  exists res, w1, res2, w2, res3, w3. split; [done|]. split; [done|].
  split; [done|]. split.
  - rewrite (proj1 (Hrt _ _ _ _ _ Hup H2 Hs2)); [done|]. unfold seven_days. lia.
  - split; [done|]. apply (proj2 (Hrt _ _ _ _ _ Hup H3 Hs3)). lia.
Defined.

(** X3. Admin delete, then receive. When no two rows of the table have the same
    code, a row deleted by an authorized admin request is gone for the
    lookup: a later receive request with its code that the limiter lets
    through is answered 404, at any instant. *)
Theorem deleted_message_not_found K key w r res1 w1 ln t ip res2 w2 :
  authorized K key → store_up w → is_bigint (id r) = true →
  NoDup (code <$> table w) → r ∈ table w → code r ≠ [] →
  admin_delete K key (id r) w = Some (res1, w1) →
  api_receive ln t ip (Some (code r)) w1 = Some (res2, w2) →
  status res2 ≠ 429 →
  res1 = res_json (JObj [("ok"%string, JBool true)]) ∧ res2 = not_found.
Proof.
  intros Ha Hup Hi Hnd Hr Hne H1 H2 Hs2.
  destruct (admin_delete_run K key (id r) w Ha) as (res & w' & E & _ & Hok).
  rewrite E in H1. injection H1 as <- <-. destruct (Hok Hup Hi) as [-> Ht].
  split; [done|].
  destruct (api_receive_lookup _ _ _ _ _ _ _ H2 Hs2) as (_ & _ & Hnf).
  apply Hnf; [by destruct (code r)|]. simpl.
  apply rows_none_live_none. rewrite Ht, rows_with_code_deleted.
  destruct (filter _ (rows_with_code (code r) (table w))) as [|x l] eqn:Ef; [done|].
  assert (x ∈ filter (λ r0, id r0 ≠ id r) (rows_with_code (code r) (table w))) as Hx.
  { rewrite Ef. apply list_elem_of_here. }
  apply list_elem_of_filter in Hx as [Hid Hx].
  apply list_elem_of_filter in Hx as [Hc Hx].
  destruct Hid. by rewrite (unique_code_row _ _ _ Hnd Hr Hx Hc).
Qed.

Lemma deleted_message_not_found_witness :
  ∃ res1 w1 res2 w2,
    admin_delete (Some (js "s3cret")) (Some (js "s3cret")) 3 five_taken = Some (res1, w1) ∧
    api_receive 40 40 "203.0.113.7" (Some (js "2222222")) w1 = Some (res2, w2) ∧
    res1 = res_json (JObj [("ok"%string, JBool true)]) ∧ res2 = not_found ∧
    ∃ res0 w0, api_receive 40 40 "203.0.113.7" (Some (js "2222222")) five_taken
                 = Some (res0, w0) ∧ status res0 = 200.
Proof.
  assert (∃ res1 w1 res2 w2,
    admin_delete (Some (js "s3cret")) (Some (js "s3cret")) (id (sample_row 3 2 30)) five_taken
      = Some (res1, w1) ∧
    api_receive 40 40 "203.0.113.7" (Some (code (sample_row 3 2 30))) w1 = Some (res2, w2) ∧
    status res2 ≠ 429)
    as (res1 & w1 & res2 & w2 & H1 & H2 & Hs2).
  { eexists _, _, _, _. split; [vm_compute; reflexivity|].
    split; [vm_compute; reflexivity|discriminate]. }
  assert (authorized (Some (js "s3cret")) (Some (js "s3cret"))) as Ha.
  { exists (js "s3cret"). by repeat split. }
  assert (NoDup (code <$> table five_taken)) as Hnd.
  { refine (bool_decide_unpack (NoDup (code <$> table five_taken)) _).
    vm_compute. exact I. }
  assert (sample_row 3 2 30 ∈ table five_taken) as Hin.
  { do 2 apply list_elem_of_further. apply list_elem_of_here. }
  assert (store_up five_taken) as Hup by discriminate.
  assert (code (sample_row 3 2 30) ≠ []) as Hne by discriminate.
  assert (is_bigint (id (sample_row 3 2 30)) = true) as Hi by reflexivity.
  destruct (deleted_message_not_found _ _ _ _ _ _ _ _ _ _ _ Ha
              Hup Hi Hnd Hin Hne H1 H2 Hs2)
    as [Hr1 Hr2].
  exists res1, w1, res2, w2. split; [exact H1|]. split; [exact H2|].
  split; [done|]. split; [done|].
  eexists _, _. split; [vm_compute; reflexivity|reflexivity].
Defined.

(** X4. Admin delete leaves the other messages where they are: a live message
    whose code is held by its row alone, and whose id is not the one deleted,
    is still answered by the lookup after the delete. *)
Theorem delete_spares_others K key i w r res1 w1 ln t ip res2 w2 :
  authorized K key → store_up w → is_bigint i = true →
  rows_with_code (code r) (table w) = [r] → id r ≠ i → code r ≠ [] →
  t < expires_at r →
  admin_delete K key i w = Some (res1, w1) →
  store_up w1 →
  api_receive ln t ip (Some (code r)) w1 = Some (res2, w2) →
  status res2 ≠ 429 →
  res2 = res_json (message_json r).
Proof.
  intros Ha Hup Hi Hrow Hid Hne Hlt H1 Hup1 H2 Hs2.
  destruct (admin_delete_run K key i w Ha) as (res & w' & E & _ & Hok).
  rewrite E in H1. injection H1 as <- <-. destruct (Hok Hup Hi) as [_ Ht].
  destruct (api_receive_passed _ _ _ _ _ _ _ H2 Hs2) as (w0 & H0 & Ht0 & Hf0 & _).
  assert (truthy (Some (code r)) = true) as Hc by (by destruct (code r)).
  assert (store_up w0) as Hup0 by (unfold store_up in *; by rewrite Hf0).
  rewrite (receive_handler_up _ _ _ _ _ H0 Hc Hup0), Ht0, Ht. simpl.
  rewrite live_rows_of_rows, rows_with_code_deleted, Hrow.
  rewrite filter_cons, decide_True by done. simpl.
  by rewrite filter_cons, decide_True by done.
Qed.

Lemma delete_spares_others_witness :
  ∃ res1 w1 res2 w2,
    admin_delete (Some (js "s3cret")) (Some (js "s3cret")) 3 five_taken = Some (res1, w1) ∧
    api_receive 40 40 "203.0.113.7" (Some (js "1111111")) w1 = Some (res2, w2) ∧
    res2 = res_json (message_json (sample_row 2 1 20)).
Proof.
  assert (∃ res1 w1 res2 w2,
    admin_delete (Some (js "s3cret")) (Some (js "s3cret")) 3 five_taken = Some (res1, w1) ∧
    store_up w1 ∧
    api_receive 40 40 "203.0.113.7" (Some (code (sample_row 2 1 20))) w1 = Some (res2, w2) ∧
    status res2 ≠ 429)
    as (res1 & w1 & res2 & w2 & H1 & Hup1 & H2 & Hs2).
  { eexists _, _, _, _. split; [vm_compute; reflexivity|]. split; [discriminate|].
    split; [vm_compute; reflexivity|discriminate]. }
  assert (authorized (Some (js "s3cret")) (Some (js "s3cret"))) as Ha.
  { exists (js "s3cret"). by repeat split. }
  exists res1, w1, res2, w2. split; [exact H1|]. split; [exact H2|].
  eapply (delete_spares_others _ _ 3 five_taken (sample_row 2 1 20));
    [exact Ha|discriminate|reflexivity|reflexivity|discriminate|discriminate|
     |exact H1|exact Hup1|exact H2|exact Hs2].
  simpl. unfold seven_days. lia.
Defined.

(* ===================================================================== *)
(** ** Further properties: the send *)
(* ===================================================================== *)

Lemma send_validation_None b : send_validation b = None ↔ valid_body b.
Proof.
  unfold send_validation, valid_body.
  destruct (truthy (body_topic b)), (truthy (body_author b)),
    (truthy (body_message b)); simpl;
    try (split; [discriminate|by intros (? & ? & ? & ?)]).
  destruct (Z.ltb_spec 10000 (String_length (body_message b))).
  - split; [discriminate|]. intros (_ & _ & _ & ?). lia.
  - split; [by intros _; repeat split|done].
Qed.

Lemma send_validation_Some b r : send_validation b = Some r → status r = 400.
Proof.
  unfold send_validation. destruct (_ || _); [by intros [= <-]|].
  destruct (_ <? _); [by intros [= <-]|discriminate].
Qed.

(** X5. A send is answered 400 exactly when a field of the body is missing or
    empty or the message is longer than 10,000 units; and then nothing has
    happened: no code was drawn and no call on the store was made. *)
Theorem send_rejected_iff_invalid dn sn b w res w' :
  api_send dn sn b w = Some (res, w') →
  (status res = 400 ↔ ¬ valid_body b) ∧ (status res = 400 → w' = w).
Proof.
  intros H. destruct (send_validation b) as [r|] eqn:Ev.
  - assert (¬ valid_body b) as Hn.
    { intros Hv. apply send_validation_None in Hv. congruence. }
    unfold api_send in H. rewrite Ev in H. injection H as <- <-.
    apply send_validation_Some in Ev. by repeat split.
  - pose proof (proj1 (send_validation_None b) Ev) as Hv.
    apply api_send_outcome in H.
    destruct (send_outcome_status _ _ _ _ _ _ H Ev) as [Hs|Hs].
    + split; [split; [lia|done]|lia].
    + split; [split; [lia|done]|lia].
Qed.

Lemma send_rejected_iff_invalid_witness :
  ∃ res w',
    api_send 1000 1005 (SendBody (Some (js "t")) (Some []) (Some (js "hello"))) five_taken
      = Some (res, w') ∧
    status res = 400 ∧ w' = five_taken.
Proof.
  assert (∃ res w',
    api_send 1000 1005 (SendBody (Some (js "t")) (Some []) (Some (js "hello"))) five_taken
      = Some (res, w')) as (res & w' & H).
  { eexists _, _. vm_compute. reflexivity. }
  destruct (send_rejected_iff_invalid _ _ _ _ _ _ H) as [Hiff Hw].
  assert (status res = 400) as Hs.
  { apply Hiff. intros (_ & Hau & _). discriminate. }
  exists res, w'. split; [exact H|]. split; [exact Hs|by apply Hw].
Defined.

(** The calls of the loop, in order: checks that found a row, then either
    nothing (the loop ran out of attempts), one check that found none, or
    one check that failed. *)
Lemma collision_loop_trace n : ∀ c w r w',
  collision_loop n c w = Some (r, w') →
  table w' = table w ∧ next_id w' = next_id w ∧ hits w' = hits w ∧
  ∃ found tl, log w' = log w ++ found ++ tl ∧ Forall found_row found ∧
    (length found + length tl ≤ n)%nat ∧
    match r with
    | inl res =>
        res = res_status_json 500 (error_body "DB error checking code") ∧
        ∃ c0 e, tl = [SelectIdByCode c0 (Error e)]
    | inr c' =>
        (tl = [] ∧ length found = n) ∨ tl = [SelectIdByCode c' (Data None)]
    end.
Proof.
  induction n as [|n IH]; intros c w r w' H; simpl in H.
  - injection H as <- <-. repeat split. exists [], []. rewrite app_nil_r.
    repeat split; auto.
  - run_step H e w1 E.
    destruct (db_select_id_by_code_run c w) as (e0 & w0 & E0 & Ht & Hn & Hh & _ & Hl & _).
    rewrite E0 in E. injection E as <- <-.
    destruct e0 as [[i|]|err].
    + run_step H c1 w2 E2. apply nanoid_inv in E2 as (_ & Ht2 & Hn2 & Hh2 & Hl2 & _).
      apply IH in H as (Ht3 & Hn3 & Hh3 & found & tl & Hlog & Hf & Hlen & Hr).
      split; [congruence|]. split; [congruence|]. split; [congruence|].
      exists (SelectIdByCode c (Data (Some i)) :: found), tl.
      split; [by rewrite Hlog, Hl2, Hl, <- app_assoc|].
      split; [by constructor|]. split; [simpl; lia|].
      destruct r as [res|c']; [done|].
      destruct Hr as [[-> Hfl]|Hr]; [left; split; [done|simpl; lia]|by right].
    + injection H as <- <-. repeat split; try done.
      exists [], [SelectIdByCode c (Data None)].
      repeat split; try done; simpl; try lia. by right.
    + injection H as <- <-. repeat split; try done.
      exists [], [SelectIdByCode c (Error err)].
      repeat split; try done; simpl; try lia. by exists c, err.
Qed.

Lemma db_insert_next_id sn tp au c msg exp w r w' :
  db_insert sn tp au c msg exp w = Some (r, w') →
  next_id w ≤ next_id w' ≤ next_id w + 1.
Proof.
  revert r w'. run_db. destruct (default false (head (faults w))); simpl.
  { intros r w' [= <- <-]. simpl. lia. }
  destruct (7 <? length c)%nat; simpl.
  { intros r w' [= <- <-]. simpl. lia. }
  destruct (rows_with_code c (table w)) as [|x l]; simpl;
    intros r w' [= <- <-]; simpl; lia.
Qed.

(** A send whose body is valid, cut at the end of its loop. *)
Lemma api_send_trace dn sn b w res w' :
  api_send dn sn b w = Some (res, w') →
  send_validation b = None →
  ∃ w2 r found tl,
    table w2 = table w ∧ next_id w2 = next_id w ∧ hits w2 = hits w ∧
    log w2 = log w ++ found ++ tl ∧ Forall found_row found ∧
    (length found + length tl ≤ 5)%nat ∧
    match r with
    | inl res0 =>
        res0 = res_status_json 500 (error_body "DB error checking code") ∧
        (∃ c0 e, tl = [SelectIdByCode c0 (Error e)]) ∧ res = res0 ∧ w' = w2
    | inr c =>
        good_code c ∧
        ((tl = [] ∧ length found = 5%nat) ∨ tl = [SelectIdByCode c (Data None)]) ∧
        if valid_date (dn + seven_days) then
          ∃ ins, db_insert sn (text_of (body_topic b)) (text_of (body_author b)) c
                   (text_of (body_message b)) (dn + seven_days) w2 = Some (ins, w') ∧
                 res = match ins with
                       | Error _ => res_status_json 500 (error_body "Failed to save message")
                       | Data data => res_json (sent_json data)
                       end
        else res = res_status_json 500 (error_body "Server error") ∧ w' = w2
    end.
Proof.
  unfold api_send. intros H Hv. rewrite Hv in H.
  run_step H c0 w1 E0. apply nanoid_inv in E0 as (Hg0 & Ht1 & Hn1 & Hh1 & Hl1 & _).
  run_step H r w2 E1.
  destruct (collision_loop_inv _ _ _ _ _ E1 Hg0) as [_ Hgood].
  apply collision_loop_trace in E1 as (Ht2 & Hn2 & Hh2 & found & tl & Hlog & Hf & Hlen & Hr).
  exists w2, r, found, tl.
  split; [congruence|]. split; [congruence|]. split; [congruence|].
  split; [by rewrite Hlog, Hl1|]. split; [done|]. split; [done|].
  destruct r as [res0|c].
  - destruct Hr as [-> Htl]. injection H as <- <-. done.
  - split; [done|]. split; [done|].
    destruct (valid_date (dn + seven_days)); simpl in H.
    + run_step H ins w3 E3. exists ins. split.
      * destruct ins; injection H as <- <-; done.
      * destruct ins; by injection H as <- <-.
    + by injection H as <- <-.
Qed.

(** X6. What a send may do to the world. It never changes a row that is there:
    the table is left as it was or gets one row at its end. It makes at most
    five collision checks, all before its only insert, if any. It draws at
    most one value of the identity sequence and leaves the counters of the
    rate limiter alone. *)
Theorem send_footprint dn sn b w res w' :
  api_send dn sn b w = Some (res, w') →
  (table w' = table w ∨ ∃ r, table w' = table w ++ [r] ∧ status res = 200) ∧
  (∃ checks ins, log w' = log w ++ checks ++ ins ∧
     Forall is_check checks ∧ (length checks ≤ 5)%nat ∧
     (ins = [] ∨ ∃ c r, ins = [InsertMessage c r])) ∧
  next_id w ≤ next_id w' ≤ next_id w + 1 ∧
  hits w' = hits w.
Proof.
  intros H. destruct (send_validation b) as [r0|] eqn:Ev.
  { unfold api_send in H. rewrite Ev in H. injection H as <- <-.
    split; [by left|]. split; [|split; [lia|done]].
    exists [], []. rewrite app_nil_r. repeat split; auto. simpl. lia. }
  destruct (api_send_trace _ _ _ _ _ _ H Ev)
    as (w2 & r & found & tl & Ht & Hn & Hh & Hl & Hf & Hlen & Hr).
  assert (Forall is_check (found ++ tl)) as Hchecks.
  { apply Forall_app. split.
    - eapply Forall_impl; [exact Hf|]. intros [] Hx; try done.
    - destruct r as [res0|c].
      + destruct Hr as (_ & (c0 & e & ->) & _). by repeat constructor.
      + destruct Hr as (_ & [[-> _] | ->] & _); by repeat constructor. }
  assert ((length (found ++ tl) ≤ 5)%nat) as Hlen' by (rewrite length_app; lia).
  destruct r as [res0|c].
  { destruct Hr as (_ & _ & -> & ->). split; [by left|].
    split; [|split; [lia|done]].
    exists (found ++ tl), []. rewrite app_nil_r. by repeat split; auto. }
  destruct Hr as (Hg & _ & Hr). destruct (valid_date (dn + seven_days)).
  2:{ destruct Hr as [-> ->]. split; [by left|].
      split; [|split; [lia|done]].
      exists (found ++ tl), []. rewrite app_nil_r. by repeat split; auto. }
  destruct Hr as (ins & E & ->).
  pose proof (db_insert_next_id _ _ _ _ _ _ _ _ _ E) as Hnid.
  destruct (db_insert_run sn (text_of (body_topic b)) (text_of (body_author b)) c
              (text_of (body_message b)) (dn + seven_days) w2)
    as (ins' & w3 & E' & Hh3 & _ & Hl3 & Hins).
  rewrite E' in E. injection E as -> ->.
  split; [|split; [|split; [lia|congruence]]].
  - destruct ins as [x|e].
    + destruct Hins as (_ & _ & Htab & _). right. exists x. by rewrite Htab, Ht.
    + destruct Hins as (Htab & _). left. congruence.
  - exists (found ++ tl), [InsertMessage c ins].
    split; [by rewrite Hl3, Hl, <- !app_assoc|]. split; [done|]. split; [done|].
    right. by exists c, ins.
Qed.

(** X7. A collision check that fails ends the send: the answer is 500 "DB error
    checking code", the failed check is the last call on the store, every
    call before it is a check, so that nothing is inserted, and the table is
    left as it was. *)
Theorem failed_check_is_fatal dn sn b w res w' calls c e :
  api_send dn sn b w = Some (res, w') →
  log w' = log w ++ calls →
  SelectIdByCode c (Error e) ∈ calls →
  res = res_status_json 500 (error_body "DB error checking code") ∧
  last calls = Some (SelectIdByCode c (Error e)) ∧
  Forall is_check calls ∧
  table w' = table w.
Proof.
  intros H Hlog Hin. destruct (send_validation b) as [r0|] eqn:Ev.
  { unfold api_send in H. rewrite Ev in H. injection H as <- <-.
    assert (calls = []) as -> by (apply (app_inv_head (log w)); by rewrite app_nil_r).
    by apply elem_of_nil in Hin. }
  destruct (api_send_trace _ _ _ _ _ _ H Ev)
    as (w2 & r & found & tl & Ht & Hn & Hh & Hl & Hf & Hlen & Hr).
  assert (∀ x, x ∈ found → x ≠ SelectIdByCode c (Error e)) as Hnf.
  { intros x Hx ->. rewrite Forall_forall in Hf. by apply Hf in Hx. }
  destruct r as [res0|c1].
  - destruct Hr as (-> & (c0 & e0 & ->) & -> & ->).
    rewrite Hl in Hlog. apply app_inv_head in Hlog as <-.
    apply elem_of_app in Hin as [Hin|Hin]; [by destruct (Hnf _ Hin)|].
    apply list_elem_of_singleton in Hin. injection Hin as -> ->.
    split; [done|]. split; [apply last_snoc|]. split; [|done].
    apply Forall_app. split; [|by repeat constructor].
    eapply Forall_impl; [exact Hf|]. by intros [].
  - exfalso. destruct Hr as (_ & Htl & Hr).
    assert (SelectIdByCode c (Error e) ∉ found ++ tl) as Hnot.
    { intros Hx. apply elem_of_app in Hx as [Hx|Hx]; [by destruct (Hnf _ Hx)|].
      destruct Htl as [[-> _] | ->]; [by apply elem_of_nil in Hx|].
      apply list_elem_of_singleton in Hx. discriminate. }
    destruct (valid_date (dn + seven_days)).
    + destruct Hr as (ins & E & _).
      destruct (db_insert_run sn (text_of (body_topic b)) (text_of (body_author b)) c1
                  (text_of (body_message b)) (dn + seven_days) w2)
        as (ins' & w3 & E' & _ & _ & Hl3 & _).
      rewrite E' in E. injection E as -> ->.
      rewrite Hl3, Hl, <- !app_assoc in Hlog. apply app_inv_head in Hlog as <-.
      rewrite app_assoc in Hin. apply elem_of_app in Hin as [Hin|Hin]; [done|].
      apply list_elem_of_singleton in Hin. discriminate.
    + destruct Hr as [_ ->]. rewrite Hl in Hlog. apply app_inv_head in Hlog as <-.
      done.
Qed.

Lemma send_footprint_witness :
  ∃ res w',
    api_send 1000 1005 hello five_taken = Some (res, w') ∧
    (∃ r, table w' = table five_taken ++ [r]) ∧
    next_id w' = 7 ∧ hits w' = hits five_taken.
Proof.
  assert (∃ res w', api_send 1000 1005 hello five_taken = Some (res, w') ∧
                    length (table w') = 6%nat ∧ next_id w' = 7)
    as (res & w' & H & Hlen & Hn).
  { eexists _, _. split; [vm_compute; reflexivity|]. split; reflexivity. }
  destruct (send_footprint _ _ _ _ _ _ H) as ([Ht|(r & Ht & _)] & _ & _ & Hh).
  { rewrite Ht in Hlen. discriminate. }
  exists res, w'. split; [exact H|]. split; [by exists r|]. by split.
Defined.

Lemma failed_check_is_fatal_witness :
  ∃ res w' calls,
    api_send 1000 1005 hello second_check_fails = Some (res, w') ∧
    log w' = log second_check_fails ++ calls ∧
    calls = [SelectIdByCode (js "0000000") (Data (Some 1));
             SelectIdByCode (js "1111111") (Error Unavailable)] ∧
    res = res_status_json 500 (error_body "DB error checking code") ∧
    table w' = table second_check_fails.
Proof.
  assert (∃ res w' calls,
    api_send 1000 1005 hello second_check_fails = Some (res, w') ∧
    log w' = log second_check_fails ++ calls ∧
    calls = [SelectIdByCode (js "0000000") (Data (Some 1));
             SelectIdByCode (js "1111111") (Error Unavailable)])
    as (res & w' & calls & H & Hlog & Hcalls).
  { eexists _, _, _. split; [vm_compute; reflexivity|].
    split; [vm_compute; reflexivity|]. vm_compute. reflexivity. }
  assert (SelectIdByCode (js "1111111") (Error Unavailable) ∈ calls) as Hin.
  { rewrite Hcalls. apply list_elem_of_further, list_elem_of_here. }
  destruct (failed_check_is_fatal _ _ _ _ _ _ _ _ _ H Hlog Hin) as (Hr & _ & _ & Ht).
  by exists res, w', calls.
Defined.

(** What a send does to the table and to the identity sequence. *)
Lemma api_send_effect dn sn b w res w' :
  api_send dn sn b w = Some (res, w') →
  (table w' = table w ∧ next_id w ≤ next_id w' ∧ status res ≠ 200) ∨
  (∃ c, good_code c ∧ rows_with_code c (table w) = [] ∧
        table w' = table w ++ [new_row dn sn b w c] ∧
        next_id w' = next_id w + 1 ∧
        res = res_json (sent_json (new_row dn sn b w c))).
Proof.
  intros H. destruct (send_validation b) as [r0|] eqn:Ev.
  { unfold api_send in H. rewrite Ev in H. injection H as <- <-. left.
    apply send_validation_Some in Ev. split; [done|]. split; lia. }
  destruct (api_send_trace _ _ _ _ _ _ H Ev)
    as (w2 & r & found & tl & Ht & Hn & Hh & Hl & Hf & Hlen & Hr).
  destruct r as [res0|c].
  { destruct Hr as (-> & _ & -> & ->). left. split; [done|]. split; [lia|done]. }
  destruct Hr as (Hg & _ & Hr). destruct (valid_date (dn + seven_days)).
  2:{ destruct Hr as [-> ->]. left. split; [done|]. split; [lia|done]. }
  destruct Hr as (ins & E & ->).
  pose proof (db_insert_next_id _ _ _ _ _ _ _ _ _ E) as Hnid.
  destruct (db_insert_run sn (text_of (body_topic b)) (text_of (body_author b)) c
              (text_of (body_message b)) (dn + seven_days) w2)
    as (ins' & w3 & E' & _ & _ & _ & Hins).
  rewrite E' in E. injection E as -> ->.
  destruct ins as [x|e].
  - destruct Hins as (-> & Hfree & Htab & Hnx). right. exists c.
    unfold new_row. rewrite <- Hn, <- Ht.
    split; [done|]. split; [done|]. split; [done|]. split; [done|]. reflexivity.
  - destruct Hins as (Htab & _). left. split; [congruence|]. split; [lia|done].
Qed.

Lemma store_ok_same_table w w' :
  store_ok w → table w' = table w → next_id w ≤ next_id w' → store_ok w'.
Proof.
  intros (Hc & Hi & Hb) Ht Hn. unfold store_ok. rewrite Ht.
  split; [done|]. split; [done|]. intros r Hr. specialize (Hb r Hr). lia.
Qed.

Lemma store_ok_deleted w w' i :
  store_ok w → table w' = filter (λ r, id r ≠ i) (table w) →
  next_id w' = next_id w → store_ok w'.
Proof.
  intros (Hc & Hi & Hb) Ht Hn. unfold store_ok. rewrite Ht, Hn.
  split; [|split].
  - apply (sublist_NoDup _ _ Hc). apply fmap_sublist, sublist_filter.
  - apply (sublist_NoDup _ _ Hi). apply fmap_sublist, sublist_filter.
  - intros r Hr. apply list_elem_of_filter in Hr as [_ Hr]. by apply Hb.
Qed.

Lemma rows_with_code_none c t : rows_with_code c t = [] → c ∉ code <$> t.
Proof.
  intros H Hin. apply list_elem_of_fmap in Hin as (r & -> & Hr).
  assert (r ∈ rows_with_code (code r) t) as Hx by (by apply list_elem_of_filter).
  rewrite H in Hx. by apply elem_of_nil in Hx.
Qed.

Lemma admin_list_effect K key w res w' :
  admin_list K key w = Some (res, w') →
  table w' = table w ∧ next_id w' = next_id w.
Proof.
  unfold admin_list. destruct (requireAdmin K key); [by intros [= <- <-]|].
  run_db. destruct (default false (head (faults w))); by intros [= <- <-].
Qed.

Lemma admin_delete_effect K key i w res w' :
  admin_delete K key i w = Some (res, w') →
  next_id w' = next_id w ∧
  (table w' = table w ∨ table w' = filter (λ r, id r ≠ i) (table w)).
Proof.
  unfold admin_delete. destruct (requireAdmin K key); [intros [= <- <-]; auto|].
  run_db. destruct (default false (head (faults w))); simpl;
    [intros [= <- <-]; auto|].
  destruct (is_bigint i); simpl; intros [= <- <-]; auto.
Qed.

Lemma api_send_keeps_ok dn sn b w res w' :
  store_ok w → api_send dn sn b w = Some (res, w') → store_ok w'.
Proof.
  intros Hok H.
  destruct (api_send_effect _ _ _ _ _ _ H) as [(Ht & Hn & _)|(c & _ & Hfree & Ht & Hn & _)].
  { by apply (store_ok_same_table w). }
  destruct Hok as (Hc & Hi & Hb). unfold store_ok. rewrite Ht, Hn, !fmap_app.
  split; [|split].
  - apply NoDup_app. split; [done|]. split; [|by apply NoDup_singleton].
    intros x Hx Hx'. apply list_elem_of_singleton in Hx'. simpl in Hx'. subst x.
    by apply (rows_with_code_none _ _ Hfree).
  - apply NoDup_app. split; [done|]. split; [|by apply NoDup_singleton].
    intros x Hx Hx'. apply list_elem_of_singleton in Hx'. simpl in Hx'. subst x.
    apply list_elem_of_fmap in Hx as (r & Hid & Hr). specialize (Hb r Hr). lia.
  - intros r Hr. apply elem_of_app in Hr as [Hr|Hr].
    + specialize (Hb r Hr). lia.
    + apply list_elem_of_singleton in Hr as ->. simpl. lia.
Qed.

(** X9. The constraints of the schema are kept by every route: when no two rows
    have the same code or the same id and every id is below the next value
    of the identity sequence, this is so again after a send, a receive, an
    admin list or an admin delete, however the request ends. *)
Theorem store_ok_kept w :
  store_ok w →
  (∀ dn sn b res w', api_send dn sn b w = Some (res, w') → store_ok w') ∧
  (∀ ln dn ip c res w', api_receive ln dn ip c w = Some (res, w') → store_ok w') ∧
  (∀ K key res w', admin_list K key w = Some (res, w') → store_ok w') ∧
  (∀ K key i res w', admin_delete K key i w = Some (res, w') → store_ok w').
Proof.
  intros Hok. split; [|split; [|split]].
  - intros dn sn b res w' H. by apply (api_send_keeps_ok dn sn b w res).
  - intros ln dn ip c res w' H. apply api_receive_run in H as [[_ ->]|H].
    { by apply (store_ok_same_table w). }
    destruct (receive_handler_run dn c
                (set_hits (<[ip := window_after (hits w !! ip) ln]> (hits w)) w))
      as (res0 & w0 & E & Ht & Hn & _).
    rewrite E in H. injection H as <- <-.
    apply (store_ok_same_table w); [done|done|]. simpl in Hn. lia.
  - intros K key res w' H. apply admin_list_effect in H as [Ht Hn].
    apply (store_ok_same_table w); [done|done|lia].
  - intros K key i res w' H. apply admin_delete_effect in H as [Hn [Ht|Ht]].
    + apply (store_ok_same_table w); [done|done|lia].
    + by apply (store_ok_deleted w w' i).
Qed.

Lemma store_ok_kept_witness :
  store_ok five_taken ∧
  ∃ res w', api_send 1000 1005 hello five_taken = Some (res, w') ∧ store_ok w' ∧
    ∃ res2 w2, admin_delete (Some (js "s3cret")) (Some (js "s3cret")) 2 w'
                 = Some (res2, w2) ∧ store_ok w2.
Proof.
  assert (store_ok five_taken) as Hok.
  { split; [|split].
    - refine (bool_decide_unpack (NoDup (code <$> table five_taken)) _).
      vm_compute. exact I.
    - refine (bool_decide_unpack (NoDup (id <$> table five_taken)) _).
      vm_compute. exact I.
    - intros r Hr. unfold five_taken in Hr. cbn [table] in Hr.
      repeat (apply elem_of_cons in Hr as [->|Hr]; [simpl; lia|]).
      by apply elem_of_nil in Hr. }
  split; [exact Hok|].
  assert (∃ res w', api_send 1000 1005 hello five_taken = Some (res, w'))
    as (res & w' & H).
  { eexists _, _. vm_compute. reflexivity. }
  pose proof (proj1 (store_ok_kept five_taken Hok) _ _ _ _ _ H) as Hok'.
  exists res, w'. split; [exact H|]. split; [exact Hok'|].
  destruct (admin_delete_run (Some (js "s3cret")) (Some (js "s3cret")) 2 w')
    as (res2 & w2 & H2 & _).
  { exists (js "s3cret"). by repeat split. }
  exists res2, w2. split; [exact H2|].
  exact (proj2 (proj2 (proj2 (store_ok_kept w' Hok'))) _ _ _ _ _ H2).
Defined.

Lemma js_number_exact z : - 2 ^ 53 ≤ z ≤ 2 ^ 53 → js_number z = z.
Proof.
  intros Hz. unfold js_number.
  destruct (Z.leb_spec (Z.log2 (Z.abs z) - 52) 0) as [|Hlog]; [done|].
  assert (¬ Z.abs z < 2 ^ 53) as Hge.
  { intros Hlt. destruct (Z.eq_dec z 0) as [->|Hz0]; [simpl in Hlog; lia|].
    apply Z.log2_lt_pow2 in Hlt; lia. }
  change (2 ^ 53) with 9007199254740992 in *.
  assert (z = 9007199254740992 ∨ z = - 9007199254740992) as [-> | ->] by lia;
    reflexivity.
Qed.

(** Above 2^53 two neighbouring integers are held as the same number. *)
Lemma js_number_rounds :
  js_number (2 ^ 53 + 1) = 2 ^ 53 ∧ js_number (2 ^ 53 + 3) = 2 ^ 53 + 4.
Proof. split; reflexivity. Qed.

(** X10. A send that succeeds answers with a code that no row of the table has,
    live or expired, and keeps all the rows that were there; and, the
    constraints of the schema holding and the identity sequence being at
    most at 2^53 (up to where an id is an exact JavaScript number), it
    answers with an id above the id of every row. *)
Theorem sent_code_and_id_fresh dn sn b w res w' :
  store_ok w →
  api_send dn sn b w = Some (res, w') →
  status res = 200 →
  ∃ i c,
    payload res = JObj [("id"%string, JNum i); ("code"%string, JStr c);
                        ("expires_at"%string, JNum (dn + seven_days))] ∧
    (∀ r, r ∈ table w → code r ≠ c) ∧
    (- 2 ^ 53 ≤ next_id w ≤ 2 ^ 53 → ∀ r, r ∈ table w → id r < i) ∧
    (∀ r, r ∈ table w → r ∈ table w').
Proof.
  intros (_ & _ & Hb) H Hs.
  destruct (api_send_effect _ _ _ _ _ _ H) as [(_ & _ & Hn)|(c & _ & Hfree & Ht & _ & ->)];
    [done|].
  exists (js_number (next_id w)), c. split; [done|]. split; [|split].
  - intros r Hr Hc. apply (rows_with_code_none _ _ Hfree). rewrite <- Hc.
    by apply list_elem_of_fmap_2.
  - intros Hbound r Hr. rewrite js_number_exact by done. by apply Hb.
  - intros r Hr. rewrite Ht. apply elem_of_app. by left.
Qed.

Lemma sent_code_and_id_fresh_witness :
  ∃ res w',
    api_send 1000 1005 hello three_rows = Some (res, w') ∧
    payload res = JObj [("id"%string, JNum 4); ("code"%string, JStr (js "3333333"));
                        ("expires_at"%string, JNum (1000 + seven_days))] ∧
    ∀ r, r ∈ table three_rows → code r ≠ js "3333333" ∧ id r < 4.
Proof.
  assert (∃ res w',
    api_send 1000 1005 hello three_rows = Some (res, w') ∧ status res = 200 ∧
    payload res = JObj [("id"%string, JNum 4); ("code"%string, JStr (js "3333333"));
                        ("expires_at"%string, JNum (1000 + seven_days))])
    as (res & w' & H & Hs & Hp).
  { eexists _, _. split; [vm_compute; reflexivity|]. split; reflexivity. }
  assert (store_ok three_rows) as Hok.
  { split; [|split].
    - refine (bool_decide_unpack (NoDup (code <$> table three_rows)) _).
      vm_compute. exact I.
    - refine (bool_decide_unpack (NoDup (id <$> table three_rows)) _).
      vm_compute. exact I.
    - intros r Hr. unfold three_rows in Hr. cbn [table] in Hr.
      repeat (apply elem_of_cons in Hr as [->|Hr]; [simpl; lia|]).
      by apply elem_of_nil in Hr. }
  assert (- 2 ^ 53 ≤ next_id three_rows ≤ 2 ^ 53) as Hbound by (by vm_compute).
  destruct (sent_code_and_id_fresh _ _ _ _ _ _ Hok H Hs)
    as (i & c & Hp' & Hfresh & Hid & _).
  rewrite Hp in Hp'. injection Hp' as <- <-.
  exists res, w'. split; [exact H|]. split; [exact Hp|].
  intros r Hr. split; [by apply Hfresh|by apply Hid].
Defined.

Lemma stored_code_checked_or_exhausted_witness :
  (∃ res w' checks,
     api_send 1000 1005 hello three_rows = Some (res, w') ∧ status res = 200 ∧
     log w' = log three_rows ++ checks ++
                [InsertMessage (js "3333333")
                   (Data (new_row 1000 1005 hello three_rows (js "3333333")))] ∧
     last checks = Some (SelectIdByCode (js "3333333") (Data None))) ∧
  (∃ res w' checks,
     api_send 1000 1005 hello five_taken = Some (res, w') ∧ status res = 200 ∧
     log w' = log five_taken ++ checks ++
                [InsertMessage (js "5555555")
                   (Data (new_row 1000 1005 hello five_taken (js "5555555")))] ∧
     length checks = 5%nat ∧ Forall found_row checks).
Proof.
  split.
  - assert (∃ res w', api_send 1000 1005 hello three_rows = Some (res, w') ∧
                      status res = 200 ∧ length (log w') = 3%nat ∧
                      last (log w') =
                        Some (InsertMessage (js "3333333")
                                (Data (new_row 1000 1005 hello three_rows (js "3333333")))))
      as (res & w' & H & Hs & Hlen & Hlast).
    { eexists _, _. split; [vm_compute; reflexivity|]. split; [reflexivity|].
      split; reflexivity. }
    destruct (stored_code_checked_or_exhausted _ _ _ _ _ _ H Hs)
      as (c & checks & Hlog & Hcases).
    rewrite Hlog in Hlast. cbn [log three_rows app] in Hlast.
    rewrite last_snoc in Hlast. injection Hlast as <-.
    exists res, w', checks. split; [exact H|]. split; [exact Hs|]. split; [exact Hlog|].
    destruct Hcases as [Hc|[Hc _]]; [exact Hc|].
    rewrite Hlog in Hlen. cbn [log three_rows app] in Hlen.
    rewrite length_app in Hlen. simpl in Hlen. lia.
  - assert (∃ res w', api_send 1000 1005 hello five_taken = Some (res, w') ∧
                      status res = 200 ∧ length (log w') = 6%nat ∧
                      last (log w') =
                        Some (InsertMessage (js "5555555")
                                (Data (new_row 1000 1005 hello five_taken (js "5555555")))) ∧
                      Forall (λ x, ∀ c, x ≠ SelectIdByCode c (Data None)) (log w'))
      as (res & w' & H & Hs & Hlen & Hlast & Hnone).
    { eexists _, _. split; [vm_compute; reflexivity|]. split; [reflexivity|].
      split; [reflexivity|]. split; [reflexivity|].
      repeat constructor; discriminate. }
    destruct (stored_code_checked_or_exhausted _ _ _ _ _ _ H Hs)
      as (c & checks & Hlog & Hcases).
    rewrite Hlog in Hlast. cbn [log five_taken app] in Hlast.
    rewrite last_snoc in Hlast. injection Hlast as <-.
    exists res, w', checks. split; [exact H|]. split; [exact Hs|]. split; [exact Hlog|].
    destruct Hcases as [Hc|Hc]; [|exact Hc].
    exfalso. rewrite Hlog in Hnone. cbn [log five_taken app] in Hnone.
    apply Forall_app in Hnone as [Hnone _]. rewrite Forall_forall in Hnone.
    apply last_Some in Hc as (l' & ->).
    eapply Hnone; [|reflexivity]. apply elem_of_app. right. apply list_elem_of_here.
Defined.

(* ===================================================================== *)
(** ** Further properties: the rate limiter *)
(* ===================================================================== *)

Lemma receive_handler_status dn c w res w' :
  receive_handler dn c w = Some (res, w') →
  status res = 200 ∨ status res = 400 ∨ status res = 404.
Proof.
  unfold receive_handler. destruct (truthy c); simpl; [|intros [= <- <-]; auto].
  run_db. destruct (default false (head (faults w))); [intros [= <- <-]; auto|].
  destruct (single _); intros [= <- <-]; auto.
Qed.

(** A request is answered by the limiter exactly when the window of its
    address is open and already counts five hits. *)
Lemma api_receive_limited_iff ln dn ip c w res w' :
  api_receive ln dn ip c w = Some (res, w') →
  (status res = 429 ↔ ∃ n reset, hits w !! ip = Some (n, reset) ∧ ln < reset ∧ 5 ≤ n).
Proof.
  unfold api_receive, bind. rewrite receiveLimiter_run. unfold window_after, max_hits.
  destruct (hits w !! ip) as [[n reset]|] eqn:Eh.
  - destruct (Z.leb_spec reset ln) as [Hle|Hlt]; simpl.
    + intros H. apply receive_handler_status in H.
      split; [lia|]. intros (n' & reset' & [= <- <-] & ? & ?). lia.
    + destruct (Z.ltb_spec 5 (n + 1)) as [Hn|Hn].
      * intros [= <- <-]. split; [|done]. intros _. exists n, reset.
        split; [done|]. lia.
      * intros H. apply receive_handler_status in H.
        split; [lia|]. intros (n' & reset' & [= <- <-] & ? & ?). lia.
  - simpl. intros H. apply receive_handler_status in H.
    split; [lia|]. by intros (n' & reset' & ? & _).
Qed.

Lemma take_filter_count ip (q : receive_req) (l : list receive_req) j :
  Z.of_nat (length (filter (λ q, req_ip q = ip) (take (S j) (q :: l)))) =
  (if decide (req_ip q = ip) then 1 else 0) +
  Z.of_nat (length (filter (λ q, req_ip q = ip) (take j l))).
Proof.
  simpl. rewrite filter_cons. destruct (decide (req_ip q = ip)); simpl; lia.
Qed.

(** In an open window, a request of the address is answered by the limiter
    exactly when the hits counted before the requests served, and its own
    earlier requests among them, make five or more. *)
Lemma serve_limited ip reset : ∀ reqs w rs w' n,
  hits w !! ip = Some (n, reset) →
  Forall (λ q, req_ip q = ip → req_limiter_now q < reset) reqs →
  serve reqs w = Some (rs, w') →
  ∀ j q r, reqs !! j = Some q → rs !! j = Some r → req_ip q = ip →
    (status r = 429 ↔
     5 ≤ n + Z.of_nat (length (filter (λ q, req_ip q = ip) (take j reqs)))).
Proof.
  induction reqs as [|q0 reqs IH]; intros w rs w' n Hh Hall H j q r Hq Hr Hip;
    [done|].
  simpl in H. apply Forall_cons in Hall as [Hq0 Hall].
  run_step H r0 w1 E. run_step H rs' w2 E2. injection H as <- <-.
  destruct j as [|j].
  - simpl in Hq, Hr. injection Hq as ->. injection Hr as ->.
    rewrite (api_receive_limited_iff _ _ _ _ _ _ _ E), Hip, Hh. simpl.
    split.
    + intros (n' & reset' & [= <- <-] & _ & ?). lia.
    + intros Hn. exists n, reset. split; [done|]. split; [by apply Hq0|lia].
  - simpl in Hq, Hr. rewrite take_filter_count.
    pose proof (api_receive_hits _ _ _ _ _ _ _ E) as Hh1.
    destruct (decide (req_ip q0 = ip)) as [Heq|Hne].
    + assert (hits w1 !! ip = Some (n + 1, reset)) as Hh1'.
      { rewrite Hh1, Heq, lookup_insert_eq, Hh. unfold window_after.
        destruct (Z.leb_spec reset (req_limiter_now q0)); [specialize (Hq0 Heq); lia|done]. }
      rewrite (IH w1 rs' w2 (n + 1) Hh1' Hall E2 j q r Hq Hr Hip). lia.
    + assert (hits w1 !! ip = Some (n, reset)) as Hh1'.
      { rewrite Hh1. by rewrite lookup_insert_ne. }
      rewrite (IH w1 rs' w2 n Hh1' Hall E2 j q r Hq Hr Hip). lia.
Qed.

(** X12. Exactly five per window. When a request of an address opens a window of
    the limiter (the address has none, or its last one has ended), then of
    the requests of that address served within the 60 seconds that follow,
    among requests of any other addresses, those answered 429 are exactly
    the ones that come after five earlier requests of the address: the
    first five reach the handler, every later one is rejected. *)
Theorem exactly_five_per_window ip w first rest rs w' :
  req_ip first = ip →
  no_window w ip (req_limiter_now first) →
  Forall (λ q, req_ip q = ip →
               req_limiter_now first ≤ req_limiter_now q
               < req_limiter_now first + 60 * 1000) rest →
  serve (first :: rest) w = Some (rs, w') →
  ∀ j q r, (first :: rest) !! j = Some q → rs !! j = Some r → req_ip q = ip →
    (status r = 429 ↔
     (5 ≤ length (filter (λ q, req_ip q = ip) (take j (first :: rest))))%nat).
Proof.
  intros Hip Hnw Hall H j q r Hq Hr Hipq. simpl in H.
  run_step H r0 w1 E. run_step H rs' w2 E2. injection H as <- <-.
  destruct j as [|j].
  - simpl in Hq, Hr. injection Hq as ->. injection Hr as ->.
    rewrite (api_receive_limited_iff _ _ _ _ _ _ _ E). simpl. split; [|lia].
    intros (n & reset & Hh & Hlt & _). unfold no_window in Hnw.
    rewrite Hip in Hh. rewrite Hh in Hnw. lia.
  - simpl in Hq, Hr.
    assert (hits w1 !! ip = Some (1, req_limiter_now first + windowMs)) as Hh1.
    { rewrite (api_receive_hits _ _ _ _ _ _ _ E), Hip, lookup_insert_eq. f_equal.
      unfold window_after, no_window in *.
      destruct (hits w !! ip) as [[n reset]|]; [|done].
      destruct (Z.leb_spec reset (req_limiter_now first)); [done|lia]. }
    assert (Forall (λ q, req_ip q = ip →
                         req_limiter_now q < req_limiter_now first + windowMs) rest)
      as Hall'.
    { eapply Forall_impl; [exact Hall|]. simpl. intros x Hx Hi.
      specialize (Hx Hi). unfold windowMs. lia. }
    rewrite (serve_limited ip _ rest w1 rs' w2 1 Hh1 Hall' E2 j q r Hq Hr Hipq).
    pose proof (take_filter_count ip first rest j) as Hc.
    rewrite decide_True in Hc by done. lia.
Qed.

Lemma exactly_five_per_window_witness :
  ∃ rs w',
    serve six_receives just_expired = Some (rs, w') ∧
    status <$> rs = [200; 404; 400; 404; 404; 429] ∧
    ∀ j r, rs !! j = Some r → (status r = 429 ↔ (5 ≤ j)%nat).
Proof.
  assert (∃ rs w', serve six_receives just_expired = Some (rs, w') ∧
                   status <$> rs = [200; 404; 400; 404; 404; 429])
    as (rs & w' & H & Hst).
  { eexists _, _. split; [vm_compute; reflexivity|reflexivity]. }
  exists rs, w'. split; [exact H|]. split; [exact Hst|].
  intros j r Hr.
  assert (j < 6)%nat as Hj.
  { apply lookup_lt_Some in Hr.
    assert (length (status <$> rs) = 6%nat) as Hl by (by rewrite Hst).
    rewrite length_fmap in Hl. lia. }
  assert (∃ q, (ReceiveReq "203.0.113.7" 0 0 (Some (js "0000000")) :: tail six_receives) !! j
                 = Some q ∧
               req_ip q = "203.0.113.7"%string ∧
               length (filter (λ q, req_ip q = "203.0.113.7"%string)
                         (take j (ReceiveReq "203.0.113.7" 0 0 (Some (js "0000000"))
                                    :: tail six_receives))) = j)
    as (q & Hq & Hip & Hcount).
  { do 6 (destruct j as [|j]; [eexists; split; [reflexivity|]; split; reflexivity|]).
    lia. }
  rewrite (exactly_five_per_window "203.0.113.7" just_expired
             (ReceiveReq "203.0.113.7" 0 0 (Some (js "0000000")))
             (tail six_receives) rs w' eq_refl I);
    [by rewrite Hcount| |exact H|exact Hq|exact Hr|exact Hip].
  repeat constructor; simpl; intros; lia.
Defined.

(** X13. A receive request without a code makes no call on the store, and yet
    the limiter has counted it: in an open window the hits of the address
    go up by one, and the answer is 400 "Missing code" or, after five hits,
    the answer of the limiter. *)
Theorem missing_code_is_counted ln dn ip c w res w' n reset :
  truthy c = false →
  hits w !! ip = Some (n, reset) → ln < reset →
  api_receive ln dn ip c w = Some (res, w') →
  res = (if decide (5 ≤ n) then limited
         else res_status_json 400 (error_body "Missing code")) ∧
  log w' = log w ∧ table w' = table w ∧ faults w' = faults w ∧
  hits w' !! ip = Some (n + 1, reset).
Proof.
  intros Hc Hh Hlt H.
  assert (hits w' !! ip = Some (n + 1, reset)) as Hh'.
  { rewrite (api_receive_hits _ _ _ _ _ _ _ H), lookup_insert_eq, Hh.
    unfold window_after. by destruct (Z.leb_spec reset ln); [lia|]. }
  revert H. unfold api_receive, bind. rewrite receiveLimiter_run, Hh.
  unfold window_after, max_hits. destruct (Z.leb_spec reset ln); [lia|]. simpl.
  destruct (Z.ltb_spec 5 (n + 1)).
  - intros [= <- <-]. rewrite decide_True by lia. by repeat split.
  - unfold receive_handler. rewrite Hc. simpl. intros [= <- <-].
    rewrite decide_False by lia. by repeat split.
Qed.

Lemma missing_code_is_counted_witness :
  ∃ w1 res w',
    hits w1 !! "203.0.113.7"%string = Some (1, 60000) ∧
    api_receive 100 100 "203.0.113.7" None w1 = Some (res, w') ∧
    res = res_status_json 400 (error_body "Missing code") ∧
    log w' = log w1 ∧
    hits w' !! "203.0.113.7"%string = Some (2, 60000).
Proof.
  assert (∃ r0 w1, api_receive 0 0 "203.0.113.7" None just_expired = Some (r0, w1) ∧
                   hits w1 !! "203.0.113.7"%string = Some (1, 60000))
    as (r0 & w1 & H0 & Hh).
  { eexists _, _. split; [vm_compute; reflexivity|]. vm_compute. reflexivity. }
  destruct (api_receive_returns 100 100 "203.0.113.7" None w1) as (res & w' & H).
  destruct (missing_code_is_counted 100 100 "203.0.113.7" None w1 res w' 1 60000
              eq_refl Hh ltac:(lia) H) as (Hr & Hl & _ & _ & Hh').
  exists w1, res, w'. split; [exact Hh|]. split; [exact H|].
  split; [by rewrite Hr|]. by split.
Defined.

(* ===================================================================== *)
(** ** Further properties: the admin list *)
(* ===================================================================== *)







(* ===================================================================== *)
(** ** Further properties: one send after another *)
(* ===================================================================== *)

(** X11. Two sends that succeed one after the other never answer with the same
    code, whatever the generator draws (the constraints of the schema
    holding before the first); and while the identity sequence is below
    2^53 (up to where an id is an exact JavaScript number) the second
    answers with the larger id. *)
Theorem two_sends_differ dn1 sn1 b1 dn2 sn2 b2 w res1 w1 res2 w2 i1 c1 e1 i2 c2 e2 :
  store_ok w →
  api_send dn1 sn1 b1 w = Some (res1, w1) →
  payload res1 = JObj [("id"%string, JNum i1); ("code"%string, JStr c1);
                       ("expires_at"%string, JNum e1)] →
  status res1 = 200 →
  api_send dn2 sn2 b2 w1 = Some (res2, w2) →
  payload res2 = JObj [("id"%string, JNum i2); ("code"%string, JStr c2);
                       ("expires_at"%string, JNum e2)] →
  status res2 = 200 →
  c1 ≠ c2 ∧ (- 2 ^ 53 ≤ next_id w < 2 ^ 53 → i1 < i2).
Proof.
  intros Hok H1 Hp1 Hs1 H2 Hp2 Hs2.
  destruct (api_send_effect _ _ _ _ _ _ H1)
    as [(_ & _ & Hn)|(c & _ & _ & Ht1 & Hn1 & ->)]; [done|].
  destruct (api_send_effect _ _ _ _ _ _ H2)
    as [(_ & _ & Hn)|(c' & _ & Hfree & _ & _ & ->)]; [done|].
  simpl in Hp1, Hp2. injection Hp1 as <- <- _. injection Hp2 as <- <- _.
  assert (new_row dn1 sn1 b1 w c ∈ table w1) as Hin.
  { rewrite Ht1. apply elem_of_app. right. apply list_elem_of_here. }
  split.
  - intros ->. apply (rows_with_code_none _ _ Hfree).
    by apply (list_elem_of_fmap_2 code) in Hin.
  - intros Hbound. simpl. rewrite Hn1.
    change (2 ^ 53) with 9007199254740992 in Hbound.
    rewrite !js_number_exact by (change (2 ^ 53) with 9007199254740992; lia). lia.
Qed.

Lemma two_sends_differ_witness :
  ∃ res1 w1 res2 w2,
    api_send 1000 1005 hello same_code_twice = Some (res1, w1) ∧
    payload res1 = JObj [("id"%string, JNum 1); ("code"%string, JStr (js "0000000"));
                         ("expires_at"%string, JNum (1000 + seven_days))] ∧
    api_send 2000 2005 hello w1 = Some (res2, w2) ∧
    payload res2 = JObj [("id"%string, JNum 2); ("code"%string, JStr (js "1111111"));
                         ("expires_at"%string, JNum (2000 + seven_days))] ∧
    js "0000000" ≠ js "1111111" ∧ 1 < 2.
Proof.
  assert (∃ res1 w1 res2 w2,
    api_send 1000 1005 hello same_code_twice = Some (res1, w1) ∧
    payload res1 = JObj [("id"%string, JNum 1); ("code"%string, JStr (js "0000000"));
                         ("expires_at"%string, JNum (1000 + seven_days))] ∧
    status res1 = 200 ∧
    api_send 2000 2005 hello w1 = Some (res2, w2) ∧
    payload res2 = JObj [("id"%string, JNum 2); ("code"%string, JStr (js "1111111"));
                         ("expires_at"%string, JNum (2000 + seven_days))] ∧
    status res2 = 200)
    as (res1 & w1 & res2 & w2 & H1 & Hp1 & Hs1 & H2 & Hp2 & Hs2).
  { eexists _, _, _, _. split; [vm_compute; reflexivity|]. split; [reflexivity|].
    split; [reflexivity|]. split; [vm_compute; reflexivity|]. split; reflexivity. }
  assert (store_ok same_code_twice) as Hok.
  { split; [constructor|]. split; [constructor|].
    intros r Hr. by apply elem_of_nil in Hr. }
  assert (- 2 ^ 53 ≤ next_id same_code_twice < 2 ^ 53) as Hbound by (by vm_compute).
  destruct (two_sends_differ _ _ _ _ _ _ _ _ _ _ _ _ _ _ _ _ _ Hok H1 Hp1 Hs1 H2 Hp2 Hs2)
    as [Hc Hi].
  exists res1, w1, res2, w2. split; [exact H1|]. split; [exact Hp1|].
  split; [exact H2|]. split; [exact Hp2|]. split; [exact Hc|exact (Hi Hbound)].
Defined.
